(** * The request-scoped transaction interceptor

    A shallow embedding of [src/kindagoose-transaction-decorator.service.ts]:
    the session templates, the [TransactionInterceptor] that opens sessions
    around a route handler and commits or aborts them afterwards, the error
    translator [handleNestException] and the [TransactionParam] accessor.

    The data store, the route handler and the scheduler of the event loop are
    the environment: they are an oracle ([World]) every theorem quantifies
    over.  What the interceptor does is recorded as a trace of [Event]s. *)

From Stdlib Require Import String List Arith NArith Lia Bool Permutation.
Import ListNotations.
Open Scope string_scope.
Set Warnings "-register-all".

(** ** JavaScript values *)

(** The two Nest exception classes the source instantiates. *)
Inductive HttpExceptionClass :=
| InternalServerErrorException
| BadRequestException.

(** The [{ cause, description }] object given to a Nest exception. *)
Record HttpExceptionOptions (V : Type) := mkOptions {
  cause : V;
  description : V
}.
Arguments mkOptions {V} _ _.
Arguments cause {V} _.
Arguments description {V} _.

(** Values that can be thrown, caught and returned.  An object carries the
    names of the classes on its prototype chain and its own properties.
    [JHttpException c a o] is the object built by [new c(a, o)] (or [new c(a)]
    when [o] is [None]): the constructor's arguments are kept as they are. *)
Inductive JsValue :=
| JUndefined
| JNull
| JBool (b : bool)
| JString (s : string)
| JObject (classes : list string) (props : list (string * JsValue))
| JHttpException (cls : HttpExceptionClass) (objectOrError : JsValue)
                 (options : option (HttpExceptionOptions JsValue)).

(** A completion: a value, or a thrown value. *)
Inductive Completion (A : Type) :=
| Normal (a : A)
| Throw (e : JsValue).
Arguments Normal {A} _.
Arguments Throw {A} _.

(** The state of a promise once settled. *)
Inductive PromiseState (A : Type) :=
| Fulfilled (a : A)
| Rejected (r : JsValue).
Arguments Fulfilled {A} _.
Arguments Rejected {A} _.

Fixpoint lookup_prop (k : string) (props : list (string * JsValue)) : option JsValue :=
  match props with
  | [] => None
  | (k', v) :: rest => if String.eqb k k' then Some v else lookup_prop k rest
  end.

(** [new Error(message)] and the engine's [TypeError]; the stack trace the
    engine attaches is not modelled. *)
Definition new_Error (message : string) : JsValue :=
  JObject ["Error"] [("message", JString message)].

Definition TypeError (message : string) : JsValue :=
  JObject ["TypeError"; "Error"] [("name", JString "TypeError"); ("message", JString message)].

(** [v instanceof C]: false on everything that is not an object.  A Nest
    exception is an instance of neither Mongoose's nor typia's classes. *)
Definition instanceof (v : JsValue) (C : string) : bool :=
  match v with
  | JObject classes _ => existsb (String.eqb C) classes
  | _ => false
  end.

(** ** Session templates and instances *)

Record WriteConcern := {
  w : string;
  journal : bool;
  wtimeoutMS : N
}.

Record TransactionOptions := {
  readConcern : option string;
  willRetryWrite : option bool;
  retryWrites : option bool;
  readPreference : option string;
  writeConcern : option WriteConcern;
  maxTimeMS : option N
}.

Record ClientSessionOptions := {
  defaultTransactionOptions : option TransactionOptions
}.

(** A live session handle of the data store. *)
Definition ClientSession := nat.

Module TransactionsTemplate.

Definition defaultSessionOptions : ClientSessionOptions :=
  {| defaultTransactionOptions := Some
       {| readConcern := Some "majority";
          willRetryWrite := Some true;
          retryWrites := Some true;
          readPreference := Some "primary";
          writeConcern := Some {| w := "majority"; journal := true; wtimeoutMS := 45000%N |};
          maxTimeMS := Some 60000%N |} |}.

Definition readOnlySessionOptions : ClientSessionOptions :=
  {| defaultTransactionOptions := Some
       {| readConcern := Some "majority";
          willRetryWrite := None;
          retryWrites := None;
          readPreference := Some "nearest";
          writeConcern := None;
          maxTimeMS := Some 60000%N |} |}.

End TransactionsTemplate.

(** [TransactionInstance]: a template and the slot for its live session.
    [None] stands for a field that is [undefined] or [null]. *)
Record TransactionInstance := {
  sessionOptions : option ClientSessionOptions;
  name : string;
  session : option ClientSession
}.

(** The constructor of [TransactionsTemplate] (and of [TransactionInstance],
    which only calls it): absent options take the default preset. *)
Definition new_TransactionsTemplate (name : string) (sessionOptions : option ClientSessionOptions)
  : TransactionInstance :=
  {| sessionOptions := Some (match sessionOptions with
                             | Some o => o
                             | None => TransactionsTemplate.defaultSessionOptions
                             end);
     name := name;
     session := None |}.

(** ** The store of objects, the request and the trace *)

(** Instances are objects: the interceptor, the request's list and the loops
    hold references to them, and [transaction.session = session] writes through
    the reference. *)
Definition loc := nat.
Definition Heap := loc -> TransactionInstance.

Definition heap_set_session (h : Heap) (l : loc) (s : option ClientSession) : Heap :=
  fun l' => if Nat.eqb l' l
            then {| sessionOptions := sessionOptions (h l); name := name (h l); session := s |}
            else h l'.

Definition heap_alloc (h : Heap) (l : loc) (t : TransactionInstance) : Heap :=
  fun l' => if Nat.eqb l' l then t else h l'.

(** The two properties the interceptor attaches to the request object. *)
Record Request := {
  transactions : option (list loc);
  isUsingTransaction : option bool
}.

Inductive Op := Commit | Abort | End_.

(** The promise returned by the [ppos]-th call of a fan-out. *)
Record Promise := {
  pop : Op;
  ppos : nat;
  psession : ClientSession
}.

Inductive Event :=
| EvStartSession (s : ClientSession) (o : option ClientSessionOptions)
| EvStartTransaction (s : ClientSession) (o : option TransactionOptions)
| EvHandle (r : Request)
| EvCall (p : Promise)
| EvSettle (p : Promise) (r : PromiseState JsValue)
| EvLog (message : string)
| EvNext (v : JsValue)
| EvComplete
| EvError (e : JsValue)
| EvUnhandledRejection (r : JsValue).

Record State := {
  heap : Heap;
  nextLoc : loc;
  nextSession : ClientSession;
  req : Request;
  trace : list Event
}.

(** ** The environment *)

Record World := {
  (** [process.env.NODE_ENV] *)
  NODE_ENV : option string;
  (** what [startSession] does when it would hand out session [s]:
      [None] opens it, [Some r] rejects with [r] *)
  startSession_rejects : ClientSession -> option JsValue;
  (** what [session.startTransaction] does: [Some r] throws [r] *)
  startTransaction_throws : ClientSession -> option JsValue;
  (** how the promise of a commit, abort or end-session call settles *)
  settles : Promise -> PromiseState JsValue;
  (** the event loop: which of the pending promises settles next *)
  pick : list Promise -> nat;
  (** the properties of a Nest exception object, given its constructor's
      arguments (Nest's classes are not part of the source) *)
  nestProp : HttpExceptionClass -> JsValue -> option (HttpExceptionOptions JsValue) -> string -> JsValue
}.

(** The order in which pending promises settle: the environment picks one of
    those still pending, again and again. *)
Fixpoint remove_nth {A} (i : nat) (l : list A) : list A :=
  match l, i with
  | [], _ => []
  | _ :: tl, O => tl
  | x :: tl, S i' => x :: remove_nth i' tl
  end.

Fixpoint schedule {A} (pick : list A -> nat) (fuel : nat) (pending : list A) : list A :=
  match fuel, pending with
  | S fuel', d :: _ =>
      let i := Nat.modulo (pick pending) (length pending) in
      nth i pending d :: schedule pick fuel' (remove_nth i pending)
  | _, _ => []
  end.

(** ** The monad of the embedding: state and exceptions *)

Definition M (A : Type) := State -> Completion A * State.

Definition ret {A} (a : A) : M A := fun st => (Normal a, st).

Definition bind {A B} (m : M A) (f : A -> M B) : M B :=
  fun st => match m st with
            | (Normal a, st') => f a st'
            | (Throw e, st') => (Throw e, st')
            end.

Definition throw {A} (e : JsValue) : M A := fun st => (Throw e, st).

Definition try_catch {A} (m : M A) (handler : JsValue -> M A) : M A :=
  fun st => match m st with
            | (Normal a, st') => (Normal a, st')
            | (Throw e, st') => handler e st'
            end.

Definition lift {A} (c : Completion A) : M A := fun st => (c, st).

Declare Scope monad_scope.
Delimit Scope monad_scope with monad.
Notation "x <- m ;; f" := (bind m (fun x => f))
  (at level 61, m at next level, right associativity) : monad_scope.
Notation "m ;;; f" := (bind m (fun _ => f))
  (at level 61, right associativity) : monad_scope.
Open Scope monad_scope.

Definition get : M State := fun st => (Normal st, st).

Definition emit (e : Event) : M unit :=
  fun st => (Normal tt,
             {| heap := heap st; nextLoc := nextLoc st; nextSession := nextSession st;
                req := req st; trace := trace st ++ [e] |}).

Definition emit_all (es : list Event) : M unit :=
  fun st => (Normal tt,
             {| heap := heap st; nextLoc := nextLoc st; nextSession := nextSession st;
                req := req st; trace := trace st ++ es |}).

Definition read (l : loc) : M TransactionInstance := fun st => (Normal (heap st l), st).

(** [transaction.session = session] *)
Definition write_session (l : loc) (s : option ClientSession) : M unit :=
  fun st => (Normal tt,
             {| heap := heap_set_session (heap st) l s; nextLoc := nextLoc st;
                nextSession := nextSession st; req := req st; trace := trace st |}).

(** An object literal: a fresh object. *)
Definition alloc (t : TransactionInstance) : M loc :=
  fun st => (Normal (nextLoc st),
             {| heap := heap_alloc (heap st) (nextLoc st) t; nextLoc := S (nextLoc st);
                nextSession := nextSession st; req := req st; trace := trace st |}).

Definition set_req (r : Request) : M unit :=
  fun st => (Normal tt,
             {| heap := heap st; nextLoc := nextLoc st; nextSession := nextSession st;
                req := r; trace := trace st |}).

(** [req.transactions = ts] and [req.isUsingTransaction = b] *)
Definition set_req_transactions (ts : list loc) : M unit :=
  st <- get;;
  set_req {| transactions := Some ts; isUsingTransaction := isUsingTransaction (req st) |}.

Definition set_req_isUsingTransaction (b : bool) : M unit :=
  st <- get;;
  set_req {| transactions := transactions (req st); isUsingTransaction := Some b |}.

(** An async function runs up to its first suspension when it is called and
    leaves the rest to run later; an exception before the suspension rejects
    its promise instead of reaching the caller. *)
Definition Async (A : Type) := M (M A).

Definition async {A} (body : M (M A)) : Async A :=
  fun st => match body st with
            | (Normal rest, st') => (Normal rest, st')
            | (Throw e, st') => (Normal (throw e), st')
            end.

Definition await {A} (rest : M A) : M A := rest.

(** ** Operations of the source *)

Section Interceptor.

Variable env : World.

(** *** Property access and [toString] *)

(** [v.k]: reading a property of [undefined] or [null] throws. *)
Definition get_prop (v : JsValue) (k : string) : Completion JsValue :=
  match v with
  | JUndefined | JNull => Throw (TypeError ("Cannot read properties of undefined or null (reading '" ++ k ++ "')"))
  | JBool _ | JString _ => Normal JUndefined
  | JObject _ props =>
      Normal (match lookup_prop k props with Some x => x | None => JUndefined end)
  | JHttpException c a o => Normal (nestProp env c a o k)
  end.

(** The string conversion of a property value inside [Error.prototype.toString]. *)
Definition string_of (v : JsValue) : string :=
  match v with
  | JString s => s
  | JBool true => "true"
  | JBool false => "false"
  | JNull => "null"
  | JUndefined => "undefined"
  | _ => "[object Object]"
  end.

Definition Error_toString (name message : JsValue) : string :=
  let name := match name with JUndefined => "Error" | v => string_of v end in
  let msg := match message with JUndefined => "" | v => string_of v end in
  if String.eqb name "" then msg
  else if String.eqb msg "" then name
  else name ++ ": " ++ msg.

(** [e.toString()]. *)
Definition toString (v : JsValue) : Completion string :=
  match v with
  | JUndefined | JNull => Throw (TypeError "Cannot read properties of undefined or null (reading 'toString')")
  | JBool _ | JString _ => Normal (string_of v)
  | JObject classes props =>
      if existsb (String.eqb "Error") classes
      then Normal (Error_toString
                     (match lookup_prop "name" props with Some x => x | None => JUndefined end)
                     (match lookup_prop "message" props with Some x => x | None => JUndefined end))
      else Normal "[object Object]"
  | JHttpException c a o =>
      Normal (Error_toString (nestProp env c a o "name") (nestProp env c a o "message"))
  end.

(** axios' [isAxiosError(payload)]: [isObject(payload) && payload.isAxiosError === true]. *)
Definition isAxiosError (payload : JsValue) : bool :=
  match payload with
  | JObject _ _ | JHttpException _ _ _ =>
      match get_prop payload "isAxiosError" with
      | Normal (JBool true) => true
      | _ => false
      end
  | _ => false
  end.

(** *** [handleNestException] *)

Definition handleNestException (e : JsValue) : Completion JsValue :=
  if instanceof e "MongooseError" then
    match get_prop e "message" with Throw x => Throw x | Normal message =>
    match get_prop e "message" with Throw x => Throw x | Normal cause_ =>
    match get_prop e "stack" with Throw x => Throw x | Normal stack =>
      Normal (JHttpException InternalServerErrorException message
                (Some {| cause := cause_; description := stack |}))
    end end end
  else if isAxiosError e then
    match get_prop e "message" with Throw x => Throw x | Normal message =>
    match get_prop e "cause" with Throw x => Throw x | Normal cause_ =>
    match get_prop e "stack" with Throw x => Throw x | Normal stack =>
      Normal (JHttpException InternalServerErrorException message
                (Some {| cause := cause_; description := stack |}))
    end end end
  else if instanceof e "TypeGuardError" then
    match get_prop e "message" with Throw x => Throw x | Normal message =>
    match get_prop e "message" with Throw x => Throw x | Normal description_ =>
      Normal (JHttpException BadRequestException message
                (Some {| cause := e; description := description_ |}))
    end end
  else Normal e.

(** *** [TransactionParam] *)

Definition misuse : JsValue :=
  JHttpException InternalServerErrorException
    (JString "TransactionParam can only be used with routes that have the TransactionInterceptor applied")
    None.

(** The callback given to [createParamDecorator]; [_data] is [None] when the
    decorator is used without an argument, and the parameter's default applies. *)
Definition TransactionParam (_data : option string) (r : Request) (h : Heap)
  : Completion (option ClientSession) :=
  let _data := match _data with Some d => d | None => "default" end in
  match isUsingTransaction r with
  | Some true =>
      Normal (match transactions r with
              | None => None
              | Some ts =>
                  match find (fun transaction => String.eqb (name (h transaction)) _data) ts with
                  | None => None
                  | Some transaction => session (h transaction)
                  end
              end)
  | _ => Throw misuse
  end.

(** *** The data store client *)

Inductive Connection := MkConnection (id : nat).

(** [connection.startSession(options)]: hands out the next session handle,
    or rejects. *)
Definition startSession (c : Connection) (o : option ClientSessionOptions) : M ClientSession :=
  fun st =>
    let s := nextSession st in
    match startSession_rejects env s with
    | Some r =>
        (Throw r, {| heap := heap st; nextLoc := nextLoc st; nextSession := S s;
                     req := req st; trace := trace st |})
    | None =>
        (Normal s, {| heap := heap st; nextLoc := nextLoc st; nextSession := S s;
                      req := req st; trace := trace st ++ [EvStartSession s o] |})
    end.

(** [session.startTransaction(options)] *)
Definition startTransaction (s : ClientSession) (o : option TransactionOptions) : M unit :=
  match startTransaction_throws env s with
  | Some r => throw r
  | None => emit (EvStartTransaction s o)
  end.

(** [transaction.session!.commitTransaction()] and its siblings: the call on
    the instance's session, which returns a promise. *)
Definition call_on_session (op : Op) (pos : nat) (transaction : loc) : M Promise :=
  t <- read transaction;;
  match session t with
  | None => throw (TypeError "Cannot read properties of null")
  | Some s =>
      let p := {| pop := op; ppos := pos; psession := s |} in
      emit (EvCall p);;; ret p
  end.

(** [transactions.map(transaction => transaction.session!.op())] *)
Fixpoint map_calls (op : Op) (pos : nat) (transactions : list loc) : M (list Promise) :=
  match transactions with
  | [] => ret []
  | transaction :: rest =>
      p <- call_on_session op pos transaction;;
      ps <- map_calls op (S pos) rest;;
      ret (p :: ps)
  end.

(** [Promise.allSettled(promises)]: waits until each promise has settled, in
    the order the event loop decides, and is fulfilled with their states. *)
Definition Promise_allSettled (promises : list Promise)
  : M (PromiseState (list (PromiseState JsValue))) :=
  emit_all (map (fun p => EvSettle p (settles env p))
                (schedule (pick env) (length promises) promises));;;
  ret (Fulfilled (map (settles env) promises)).

(** [promise.catch(onRejected)]: [None] stands for the [void] the handler
    returns. *)
Definition promise_catch {A} (p : PromiseState A) (onRejected : JsValue -> M unit) : M (option A) :=
  match p with
  | Fulfilled a => ret (Some a)
  | Rejected r => onRejected r;;; ret None
  end.

Definition logger_error (message : string) : M unit := emit (EvLog message).

(** *** [TransactionInterceptor] *)

Record TransactionInterceptor := {
  transactionsToBeGeneratedInInterceptor : list loc;
  databaseGlobalConnection : option Connection
}.


Definition getConnection (this : TransactionInterceptor) : M Connection :=
  match databaseGlobalConnection this with
  | None => throw (new_Error "No connections found")
  | Some c => ret c
  end.

(** [x!.defaultTransactionOptions] *)
Definition defaultTransactionOptions_of (o : option ClientSessionOptions)
  : M (option TransactionOptions) :=
  match o with
  | None => throw (TypeError "Cannot read properties of undefined (reading 'defaultTransactionOptions')")
  | Some o => ret (defaultTransactionOptions o)
  end.

(** The [for ... of] loop of [generateTransactions]. *)
Fixpoint generate_each (this : TransactionInterceptor) (todo : list loc)
         (transactionsArray : list loc) : M (list loc) :=
  match todo with
  | [] => ret transactionsArray
  | transaction :: rest =>
      c <- getConnection this;;
      t <- read transaction;;
      session <- startSession c (sessionOptions t);;
      o <- defaultTransactionOptions_of (sessionOptions t);;
      startTransaction session o;;;
      write_session transaction (Some session);;;
      generate_each this rest (transactionsArray ++ [transaction])%list
  end.

Definition is_test : bool :=
  match NODE_ENV env with
  | Some e => String.eqb e "test"
  | None => false
  end.

Definition generateTransactions (this : TransactionInterceptor) : M (list loc) :=
  let transactionsArray := [] in
  if is_test then ret transactionsArray
  else if Nat.eqb (length (transactionsToBeGeneratedInInterceptor this)) 0 then
    dbTransaction <- alloc {| session := None;
                              sessionOptions := Some TransactionsTemplate.defaultSessionOptions;
                              name := "default" |};;
    c <- getConnection this;;
    t <- read dbTransaction;;
    session <- startSession c (sessionOptions t);;
    o <- defaultTransactionOptions_of (sessionOptions t);;
    startTransaction session o;;;
    write_session dbTransaction (Some session);;;
    ret (transactionsArray ++ [dbTransaction])%list
  else
    generate_each this (transactionsToBeGeneratedInInterceptor this) transactionsArray.

Definition commitAllTransactions (transactions : list loc) : Async unit :=
  async (
    promiseMap <- map_calls Commit 0 transactions;;
    ret (settled <- Promise_allSettled promiseMap;;
         promise_catch settled (fun commitError =>
           s <- lift (toString commitError);;
           logger_error ("Could not commit transaction: " ++ s));;;
         ret tt)).

Definition endAllSessions (transactions : list loc) : Async unit :=
  async (
    promiseMap <- map_calls End_ 0 transactions;;
    ret (settled <- Promise_allSettled promiseMap;;
         promise_catch settled (fun endSessionError =>
           s <- lift (toString endSessionError);;
           logger_error ("Could not release connection: " ++ s));;;
         ret tt)).

Definition handleTransactionExceptions (transactions : list loc) (e : JsValue) : Async JsValue :=
  async (
    promiseMap <- map_calls Abort 0 transactions;;
    ret (settled <- Promise_allSettled promiseMap;;
         promise_catch settled (fun rollbackError =>
           s <- lift (toString rollbackError);;
           logger_error ("Could not rollback transaction: " ++ s));;;
         ending <- endAllSessions transactions;;
         await ending;;;
         translated <- lift (handleNestException e);;
         throw translated)).

(** *** Observables *)

(** What the handler's observable delivers: one value and completion, or an
    error.  A route handler is run once and answers the request once. *)
Inductive Notification :=
| NextComplete (v : JsValue)
| Error (e : JsValue).

(** Subscribing to an observable runs it up to its notification; the second
    component is the work it has left running behind (promises nobody awaits). *)
Definition Observable := M (Notification * M unit).

(** The handler sees the request object and the instances it refers to. *)
Definition CallHandler := Request -> Heap -> Notification.

(** [next.handle()] *)
Definition handle (next : CallHandler) : Observable :=
  st <- get;;
  emit (EvHandle (req st));;;
  ret (next (req st) (heap st), ret tt).

(** A promise nobody awaits: a rejection is reported by the runtime only. *)
Definition floating (rest : M unit) : M unit :=
  try_catch rest (fun r => emit (EvUnhandledRejection r)).

(** [tap(callback)]: the callback is called with each value before the value
    is passed on; what it returns is dropped.  A callback that throws turns
    the value into an error. *)
Definition tap (callback : JsValue -> Async unit) (source : Observable) : Observable :=
  nl <- source;;
  match fst nl with
  | NextComplete v =>
      try_catch (rest <- callback v;; ret (fst nl, (snd nl;;; floating rest)))
                (fun err => ret (Error err, snd nl))
  | Error _ => ret nl
  end.

(** [catchError(selector)]: on an error, continues with the observable the
    selector returns. *)
Definition catchError (selector : JsValue -> Observable) (source : Observable) : Observable :=
  nl <- source;;
  match fst nl with
  | NextComplete _ => ret nl
  | Error err =>
      nl' <- try_catch (selector err) (fun x => ret (Error x, ret tt));;
      ret (fst nl', (snd nl;;; snd nl'))
  end.

(** A promise used as an observable: its value, or its rejection as an error. *)
Definition innerFrom (promise : Async JsValue) : Observable :=
  rest <- promise;;
  try_catch (v <- await rest;; ret (NextComplete v, ret tt))
            (fun r => ret (Error r, ret tt)).

(** [throwError(errorFactory)] *)
Definition throwError (errorFactory : M JsValue) : Observable :=
  try_catch (e <- errorFactory;; ret (Error e, ret tt))
            (fun r => ret (Error r, ret tt)).

Definition intercept (this : TransactionInterceptor) (next : CallHandler) : M Observable :=
  try_catch
    (transactions_ <- generateTransactions this;;
     set_req_transactions transactions_;;;
     set_req_isUsingTransaction true;;;
     ret (catchError (fun e => innerFrom (handleTransactionExceptions transactions_ e))
            (tap (fun _ => async (
                    committing <- commitAllTransactions transactions_;;
                    ret (await committing;;;
                         ending <- endAllSessions transactions_;;
                         await ending)))
                 (handle next))))
    (fun e =>
       ret (catchError
              (fun _ => throwError (
                 s <- lift (toString e);;
                 ret (JString ("Failed To Acquire Mongoose lock " ++ s))))
              (handle next))).

(** *** The pipeline around the interceptor *)

(** Nest awaits [intercept] and subscribes to the observable it returns; the
    notifications reach the caller. *)
Definition subscribe (o : Observable) : M unit :=
  fun st => match o st with
            | (Normal (NextComplete v, later), st') =>
                (emit (EvNext v);;; emit EvComplete;;; later) st'
            | (Normal (Error e, later), st') => (emit (EvError e);;; later) st'
            | (Throw e, st') => emit (EvError e) st'
            end.

Definition serve (this : TransactionInterceptor) (next : CallHandler) : M unit :=
  try_catch (o <- intercept this next;; subscribe o) (fun e => emit (EvError e)).

End Interceptor.

(** ** Reading a trace *)

Definition Op_eqb (a b : Op) : bool :=
  match a, b with
  | Commit, Commit | Abort, Abort | End_, End_ => true
  | _, _ => false
  end.

(** [e] is the call of [op] on session [s]. *)
Definition is_call (op : Op) (s : ClientSession) (e : Event) : bool :=
  match e with
  | EvCall p => Op_eqb (pop p) op && Nat.eqb (psession p) s
  | _ => false
  end.

(** [e] is the settling of a call of [op] on session [s]. *)
Definition is_settle (op : Op) (s : ClientSession) (e : Event) : bool :=
  match e with
  | EvSettle p _ => Op_eqb (pop p) op && Nat.eqb (psession p) s
  | _ => false
  end.

(** [e] is a call of [op], on any session. *)
Definition is_op_call (op : Op) (e : Event) : bool :=
  match e with
  | EvCall p => Op_eqb (pop p) op
  | _ => false
  end.


(** [e] is a call to the data store. *)
Definition is_store_event (e : Event) : bool :=
  match e with
  | EvStartSession _ _ | EvStartTransaction _ _ | EvCall _ | EvSettle _ _ => true
  | _ => false
  end.

Definition is_log (e : Event) : bool :=
  match e with
  | EvLog _ => true
  | _ => false
  end.

(** [e] is a notification to the caller. *)
Definition is_notification (e : Event) : bool :=
  match e with
  | EvNext _ | EvComplete | EvError _ => true
  | _ => false
  end.

Definition is_handle (e : Event) : bool :=
  match e with
  | EvHandle _ => true
  | _ => false
  end.

Definition count (P : Event -> bool) (tr : list Event) : nat := length (filter P tr).

(** How many times [op] was called on [s], and how many of these calls settled. *)
Definition attempts (op : Op) (s : ClientSession) (tr : list Event) : nat :=
  count (is_call op s) tr.

Definition settlements (op : Op) (s : ClientSession) (tr : list Event) : nat :=
  count (is_settle op s) tr.

(** The sessions opened, in the order they were opened. *)
Definition opened (tr : list Event) : list ClientSession :=
  flat_map (fun e => match e with EvStartSession s _ => [s] | _ => [] end) tr.

(** What the caller received. *)
Definition delivered (tr : list Event) : list Event := filter is_notification tr.

(** Every [P] event comes before every [Q] event. *)
Definition precedes (P Q : Event -> bool) (tr : list Event) : Prop :=
  forall i j a b,
    nth_error tr i = Some a -> nth_error tr j = Some b ->
    P a = true -> Q b = true -> i < j.

(** The calls of one fan-out over the sessions [ss], and the events of their
    settling. *)
Fixpoint promises (op : Op) (pos : nat) (ss : list ClientSession) : list Promise :=
  match ss with
  | [] => []
  | s :: rest => {| pop := op; ppos := pos; psession := s |} :: promises op (S pos) rest
  end.

Definition fanout (op : Op) (ss : list ClientSession) : list Event :=
  map EvCall (promises op 0 ss).

Definition settle_events (env : World) (op : Op) (ss : list ClientSession) : list Event :=
  map (fun p => EvSettle p (settles env p))
      (schedule (pick env) (length (promises op 0 ss)) (promises op 0 ss)).

Definition add_trace (st : State) (es : list Event) : State :=
  {| heap := heap st; nextLoc := nextLoc st; nextSession := nextSession st;
     req := req st; trace := trace st ++ es |}.

(** The sessions held by the instances [ts]. *)
Definition sessions_of (h : Heap) (ts : list loc) : list (option ClientSession) :=
  map (fun t => session (h t)) ts.

(** The request as the interceptor leaves it for the handler. *)
Definition attached (ts : list loc) : Request :=
  {| transactions := Some ts; isUsingTransaction := Some true |}.

(** [e] is the opening of a session or the start of its transaction. *)
Definition is_open_event (e : Event) : bool :=
  match e with
  | EvStartSession _ _ | EvStartTransaction _ _ => true
  | _ => false
  end.

(** The events of a request whose sessions [ss] were opened by [gen]: the
    handler, the fan-out of [op] (commit or abort) and its settling, then the
    end-session fan-out and its settling; [before] and [after] are what the
    caller receives, before the fan-outs settle or after them. *)
Definition request_events (env : World) (op : Op) (ss : list ClientSession)
           (gen before after : list Event) (r : Request) : list Event :=
  (gen ++ EvHandle r :: fanout op ss ++ before ++ settle_events env op ss
       ++ fanout End_ ss ++ settle_events env End_ ss ++ after)%list.

(** The sessions on which a call of [op] was rejected, and the messages logged. *)
Definition rejections (op : Op) (tr : list Event) : list ClientSession :=
  flat_map (fun e => match e with
                     | EvSettle p (Rejected _) => if Op_eqb (pop p) op then [psession p] else []
                     | _ => []
                     end) tr.

Definition logged (tr : list Event) : list string :=
  flat_map (fun e => match e with EvLog m => [m] | _ => [] end) tr.

(** ** Sample requests *)

Module Samples.

(** A data store that opens every session and fails only the commit of
    session [0]. *)
Definition store : World :=
  {| NODE_ENV := None;
     startSession_rejects := fun _ => None;
     startTransaction_throws := fun _ => None;
     settles := fun p =>
       match pop p, psession p with
       | Commit, 0 => Rejected (JObject ["MongoServerError"; "Error"]
                                  [("message", JString "WriteConflict")])
       | _, _ => Fulfilled JUndefined
       end;
     pick := fun _ => 1;
     nestProp := fun _ _ _ _ => JUndefined |}.

(** The same store under [NODE_ENV=test]. *)
Definition test_store : World :=
  {| NODE_ENV := Some "test";
     startSession_rejects := startSession_rejects store;
     startTransaction_throws := startTransaction_throws store;
     settles := settles store;
     pick := pick store;
     nestProp := nestProp store |}.

Definition connection : Connection := MkConnection 0.

(** Two templates, ["default"] and ["analytics"]. *)
Definition two_templates : Heap :=
  fun l => match l with
           | 0 => new_TransactionsTemplate "default" None
           | _ => new_TransactionsTemplate "analytics"
                    (Some TransactionsTemplate.readOnlySessionOptions)
           end.


Definition fresh_request : Request :=
  {| transactions := None; isUsingTransaction := None |}.

Definition initial (h : Heap) : State :=
  {| heap := h; nextLoc := 2; nextSession := 0; req := fresh_request; trace := [] |}.

(** The interceptor as its constructor builds it, with and without a
    connection. *)
Definition single : TransactionInterceptor :=
  {| transactionsToBeGeneratedInInterceptor := [];
     databaseGlobalConnection := Some connection |}.

Definition unconnected : TransactionInterceptor :=
  {| transactionsToBeGeneratedInInterceptor := [];
     databaseGlobalConnection := None |}.

(** An interceptor whose list holds the two instances at [0] and [1]. *)
Definition multi : TransactionInterceptor :=
  {| transactionsToBeGeneratedInInterceptor := [0; 1];
     databaseGlobalConnection := Some connection |}.

(** An interceptor whose list holds the instance at [0] twice. *)
Definition twice : TransactionInterceptor :=
  {| transactionsToBeGeneratedInInterceptor := [0; 0];
     databaseGlobalConnection := Some connection |}.

Definition succeeds : CallHandler := fun _ _ => NextComplete (JString "created").

Definition mongoose_error : JsValue :=
  JObject ["MongooseError"; "Error"]
          [("message", JString "Cast to ObjectId failed"); ("stack", JString "at save")].

Definition fails : CallHandler := fun _ _ => Error mongoose_error.

End Samples.

(** ** The handler's view and the opening of the sessions *)

(** What the handler is given by [intercept]: the request object and the
    instances, as they are when [next.handle()] is subscribed to. *)
Definition handler_view (env : World) (this : TransactionInterceptor) (st : State)
  : Request * Heap :=
  match generateTransactions env this st with
  | (Normal ts, st1) => (attached ts, heap st1)
  | (Throw _, st1) => (req st1, heap st1)
  end.

(** [e] is a call of a commit, an abort or an end-session. *)
Definition is_any_call (e : Event) : bool :=
  match e with
  | EvCall _ => true
  | _ => false
  end.

(** [e] is the settling of such a call. *)
Definition is_any_settle (e : Event) : bool :=
  match e with
  | EvSettle _ _ => true
  | _ => false
  end.

(** [e] is a rejection nobody handles. *)
Definition is_unhandled_rejection (e : Event) : bool :=
  match e with
  | EvUnhandledRejection _ => true
  | _ => false
  end.

(** [o!.defaultTransactionOptions] where [o] is present. *)
Definition transaction_options (o : option ClientSessionOptions) : option TransactionOptions :=
  match o with
  | Some o => defaultTransactionOptions o
  | None => None
  end.

(** The events of opening a session for each of the instances [ts] in turn,
    the data store handing out the sessions [s], [s + 1], ... *)
Fixpoint opening_events (h : Heap) (ts : list loc) (s : ClientSession) : list Event :=
  match ts with
  | [] => []
  | t :: rest =>
      EvStartSession s (sessionOptions (h t))
      :: EvStartTransaction s (transaction_options (sessionOptions (h t)))
      :: opening_events h rest (S s)
  end.

(** What the caller of a degraded request receives when the handler fails. *)
Definition lock_error (env : World) (e : JsValue) : JsValue :=
  match toString env e with
  | Normal s => JString ("Failed To Acquire Mongoose lock " ++ s)
  | Throw r => r
  end.

(** More sample requests. *)
Module MoreSamples.

(** A data store on which the second session cannot be opened. *)
Definition network_error : JsValue :=
  JObject ["MongoNetworkError"; "Error"]
          [("name", JString "MongoNetworkError"); ("message", JString "connection closed")].

Definition second_open_fails : World :=
  {| NODE_ENV := None;
     startSession_rejects := fun s => match s with 1 => Some network_error | _ => None end;
     startTransaction_throws := fun _ => None;
     settles := settles Samples.store;
     pick := pick Samples.store;
     nestProp := nestProp Samples.store |}.

(** A data store on which no transaction can be started. *)
Definition no_transactions : World :=
  {| NODE_ENV := None;
     startSession_rejects := fun _ => None;
     startTransaction_throws := fun _ => Some network_error;
     settles := settles Samples.store;
     pick := pick Samples.store;
     nestProp := nestProp Samples.store |}.

(** A Nest exception thrown by a handler. *)
Definition not_found : JsValue :=
  JHttpException BadRequestException (JString "no such order") None.

Definition rejects_request : CallHandler := fun _ _ => Error not_found.

End MoreSamples.

(** ** Observables that deliver any number of values *)

(** [next.handle()] is an [Observable<any>]: it may deliver no value, one, or
    several before it completes or fails.  Here an observable pushes its
    signals, one after the other, into the observer that subscribes to it, as
    rxjs does; the operators of [intercept] are given again for it.  The work
    the signals leave behind is run, in the order it was left, once the
    signals are delivered: with one value this is the order of [serve]; with
    several it is one of the orders the event loop allows, and only counts
    are read off such runs. *)
Module Stream.

Inductive Signal :=
| Next (v : JsValue)
| Err (e : JsValue)
| Complete.

Inductive Ending :=
| Completes
| Errors (e : JsValue).

(** What the handler's observable delivers: its values, in order, and its end. *)
Definition CallHandler := Request -> Heap -> list JsValue * Ending.

Definition signals (answer : list JsValue * Ending) : list Signal :=
  (map Next (fst answer)
   ++ [match snd answer with Completes => Complete | Errors e => Err e end])%list.

(** An observer runs on each signal; it tells whether the subscription is
    closed by it and leaves the work that goes on running behind (promises
    nobody awaits).  Subscribing to an observable gives the work left behind
    by all its signals. *)
Definition Observer := Signal -> M (bool * M unit).
Definition Observable := Observer -> M (M unit).

Fixpoint deliver (observer : Observer) (todo : list Signal) : M (M unit) :=
  match todo with
  | [] => ret (ret tt)
  | s :: rest =>
      r <- observer s;;
      if fst r then ret (snd r)
      else later <- deliver observer rest;; ret (snd r;;; later)
  end.

(** [next.handle()] *)
Definition handle (next : CallHandler) : Observable :=
  fun observer =>
    st <- get;;
    emit (EvHandle (req st));;;
    deliver observer (signals (next (req st) (heap st))).

(** [tap(callback)]: the callback is called with each value, then the value
    is passed on; what the callback returns is dropped.  A callback that
    throws turns the value into an error and closes the subscription. *)
Definition tapped (callback : JsValue -> Async unit) (observer : Observer) : Observer :=
  fun s =>
    match s with
    | Next v =>
        fun st =>
          match callback v st with
          | (Normal rest, st') =>
              (r <- observer (Next v);; ret (fst r, (floating rest;;; snd r))) st'
          | (Throw err, st') =>
              (r <- observer (Err err);; ret (true, snd r)) st'
          end
    | _ => observer s
    end.

Definition tap (callback : JsValue -> Async unit) (source : Observable) : Observable :=
  fun observer => source (tapped callback observer).

(** [catchError(selector)]: on an error, the observer is subscribed to the
    observable the selector returns. *)
Definition caught (selector : JsValue -> Observer -> M (M unit)) (observer : Observer)
  : Observer :=
  fun s =>
    match s with
    | Err err =>
        later <- try_catch (selector err observer)
                           (fun x => r <- observer (Err x);; ret (snd r));;
        ret (true, later)
    | _ => observer s
    end.

Definition catchError (selector : JsValue -> Observable) (source : Observable) : Observable :=
  fun observer => source (caught selector observer).

(** A promise used as an observable: its value and completion, or its
    rejection as an error. *)
Definition innerFrom (promise : Async JsValue) : Observable :=
  fun observer =>
    rest <- promise;;
    fun st =>
      match await rest st with
      | (Normal v, st') =>
          (r1 <- observer (Next v);; r2 <- observer Complete;; ret (snd r1;;; snd r2)) st'
      | (Throw r, st') => (r1 <- observer (Err r);; ret (snd r1)) st'
      end.

(** [throwError(errorFactory)] *)
Definition throwError (errorFactory : M JsValue) : Observable :=
  fun observer =>
    fun st =>
      match errorFactory st with
      | (Normal e, st') => (r <- observer (Err e);; ret (snd r)) st'
      | (Throw x, st') => (r <- observer (Err x);; ret (snd r)) st'
      end.

(** The caller. *)
Definition subscriber : Observer :=
  fun s =>
    match s with
    | Next v => emit (EvNext v);;; ret (false, ret tt)
    | Err e => emit (EvError e);;; ret (true, ret tt)
    | Complete => emit EvComplete;;; ret (true, ret tt)
    end.

Section Interceptor.

Variable env : World.

Definition intercept (this : TransactionInterceptor) (next : CallHandler) : M Observable :=
  try_catch
    (transactions_ <- generateTransactions env this;;
     set_req_transactions transactions_;;;
     set_req_isUsingTransaction true;;;
     ret (catchError (fun e => innerFrom (handleTransactionExceptions env transactions_ e))
            (tap (fun _ => async (
                    committing <- commitAllTransactions env transactions_;;
                    ret (await committing;;;
                         ending <- endAllSessions env transactions_;;
                         await ending)))
                 (handle next))))
    (fun e =>
       ret (catchError
              (fun _ => throwError (
                 s <- lift (toString env e);;
                 ret (JString ("Failed To Acquire Mongoose lock " ++ s))))
              (handle next))).

(** Nest awaits [intercept], subscribes to the observable it returns, and the
    work left behind runs once the signals are delivered. *)
Definition serve (this : TransactionInterceptor) (next : CallHandler) : M unit :=
  try_catch (o <- intercept this next;; later <- o subscriber;; later)
            (fun e => emit (EvError e)).

End Interceptor.

(** A handler that answers once, as a handler of observables. *)
Definition of_answer (next : Request -> Heap -> Notification) : CallHandler :=
  fun r h =>
    match next r h with
    | NextComplete v => ([v], Completes)
    | Error e => ([], Errors e)
    end.

End Stream.

(** Sample handlers whose observable does not answer once. *)
Module StreamSamples.

(** [of("first", "second")] *)
Definition two_values : Stream.CallHandler :=
  fun _ _ => ([JString "first"; JString "second"], Stream.Completes).






End StreamSamples.

(** * Properties *)

(** ** Lists, counting and the schedule *)

Lemma nth_remove_nth_perm {A} (l : list A) :
  forall i d, i < length l -> Permutation (nth i l d :: remove_nth i l) l.
Proof.
  induction l as [|x l IH]; intros i d Hi; simpl in Hi; [lia|].
  destruct i as [|i]; simpl.
  - apply Permutation_refl.
  - eapply perm_trans; [apply perm_swap|].
    apply perm_skip. apply IH. lia.
Qed.

Lemma remove_nth_length {A} (l : list A) :
  forall i, i < length l -> length (remove_nth i l) = pred (length l).
Proof.
  induction l as [|x l IH]; intros i Hi; simpl in Hi; [lia|].
  destruct i as [|i]; simpl; [reflexivity|].
  rewrite IH by lia. destruct l; simpl in *; lia.
Qed.

Lemma schedule_perm {A} (pick : list A -> nat) :
  forall fuel l, fuel = length l -> Permutation (schedule pick fuel l) l.
Proof.
  induction fuel as [|fuel IH]; intros l Hl.
  - destruct l; [apply perm_nil | discriminate].
  - destruct l as [|d l]; [discriminate|].
    cbn [schedule].
    set (i := Nat.modulo (pick (d :: l)) (length (d :: l))).
    assert (Hi : i < length (d :: l)) by (apply Nat.mod_upper_bound; discriminate).
    eapply perm_trans; [|apply (nth_remove_nth_perm (d :: l) i d Hi)].
    apply perm_skip. apply IH.
    rewrite remove_nth_length by exact Hi. simpl in *. lia.
Qed.

Lemma count_app P (a b : list Event) : count P (a ++ b) = count P a + count P b.
Proof. unfold count. rewrite filter_app, length_app. reflexivity. Qed.

Lemma count_none P (l : list Event) :
  (forall e, In e l -> P e = false) -> count P l = 0.
Proof.
  unfold count. induction l as [|x l IH]; intros H; simpl; [reflexivity|].
  rewrite (H x (or_introl eq_refl)). apply IH. intros e He. apply H. right. exact He.
Qed.


Lemma count_map {A} (f : A -> Event) P (l : list A) :
  count P (map f l) = length (filter (fun x => P (f x)) l).
Proof.
  unfold count. induction l as [|x l IH]; simpl; [reflexivity|].
  destruct (P (f x)); simpl; congruence.
Qed.

Lemma Op_eqb_eq a b : Op_eqb a b = true <-> a = b.
Proof. destruct a, b; simpl; split; congruence. Qed.

Lemma Op_eqb_refl a : Op_eqb a a = true.
Proof. destruct a; reflexivity. Qed.

Lemma promises_pop op : forall ss pos p, In p (promises op pos ss) -> pop p = op.
Proof.
  induction ss as [|s ss IH]; intros pos p H; simpl in H; [contradiction|].
  destruct H as [<-|H]; [reflexivity | eauto].
Qed.

Lemma promises_length op : forall ss pos, length (promises op pos ss) = length ss.
Proof. induction ss; intros; simpl; auto. Qed.

(** How many promises of a fan-out belong to session [s]. *)
Lemma promises_count op s : forall ss pos,
  length (filter (fun p => Op_eqb (pop p) op && Nat.eqb (psession p) s) (promises op pos ss))
  = count_occ Nat.eq_dec ss s.
Proof.
  induction ss as [|x ss IH]; intros pos; simpl; [reflexivity|].
  rewrite Op_eqb_refl. simpl.
  destruct (Nat.eq_dec x s) as [->|Hne].
  - rewrite Nat.eqb_refl. simpl. f_equal. apply IH.
  - apply Nat.eqb_neq in Hne. rewrite Hne. apply IH.
Qed.

Lemma promises_count_other op op' s : op' <> op -> forall ss pos,
  length (filter (fun p => Op_eqb (pop p) op && Nat.eqb (psession p) s) (promises op' pos ss)) = 0.
Proof.
  intros Hne. induction ss as [|x ss IH]; intros pos; simpl; [reflexivity|].
  destruct (Op_eqb op' op) eqn:E; [apply Op_eqb_eq in E; contradiction|].
  simpl. apply IH.
Qed.

Lemma attempts_fanout op s ss : attempts op s (fanout op ss) = count_occ Nat.eq_dec ss s.
Proof. unfold attempts, fanout. rewrite count_map. apply promises_count. Qed.

Lemma attempts_fanout_other op op' s ss : op' <> op -> attempts op s (fanout op' ss) = 0.
Proof. intros H. unfold attempts, fanout. rewrite count_map. apply promises_count_other, H. Qed.

Lemma attempts_settle_events env op op' s ss : attempts op s (settle_events env op' ss) = 0.
Proof.
  apply count_none. intros e He. unfold settle_events in He.
  apply in_map_iff in He. destruct He as [p [<- _]]. reflexivity.
Qed.




Lemma count_occ_NoDup_In (ss : list nat) s : NoDup ss -> In s ss -> count_occ Nat.eq_dec ss s = 1.
Proof.
  intros Hnd Hin. apply (proj1 (NoDup_count_occ' Nat.eq_dec ss) Hnd s Hin).
Qed.

(** A trace that splits into a part without [Q] and a part without [P] has
    every [P] before every [Q]. *)
Lemma precedes_split P Q (a b : list Event) :
  (forall e, In e a -> Q e = false) ->
  (forall e, In e b -> P e = false) ->
  precedes P Q (a ++ b).
Proof.
  intros Ha Hb i j x y Hi Hj HP HQ.
  assert (i < length a).
  { destruct (Nat.lt_ge_cases i (length a)) as [|Hge]; [assumption|].
    rewrite nth_error_app2 in Hi by exact Hge.
    apply nth_error_In in Hi. rewrite (Hb _ Hi) in HP. discriminate. }
  assert (length a <= j).
  { destruct (Nat.lt_ge_cases j (length a)) as [Hlt|]; [|assumption].
    rewrite nth_error_app1 in Hj by exact Hlt.
    apply nth_error_In in Hj. rewrite (Ha _ Hj) in HQ. discriminate. }
  lia.
Qed.

Lemma in_fanout op ss e : In e (fanout op ss) -> exists p, e = EvCall p /\ pop p = op.
Proof.
  unfold fanout. intros H. apply in_map_iff in H. destruct H as [p [<- Hp]].
  exists p. split; [reflexivity | eapply promises_pop; eauto].
Qed.

Lemma in_settle_events env op ss e :
  In e (settle_events env op ss) -> exists p r, e = EvSettle p r /\ pop p = op.
Proof.
  unfold settle_events. intros H. apply in_map_iff in H. destruct H as [p [<- Hp]].
  exists p, (settles env p). split; [reflexivity|].
  eapply promises_pop.
  eapply Permutation_in; [apply schedule_perm; reflexivity | exact Hp].
Qed.

(** ** Running the operations *)

Lemma add_trace_nil st : add_trace st [] = st.
Proof. destruct st. unfold add_trace. simpl. rewrite app_nil_r. reflexivity. Qed.

Lemma add_trace_app st a b : add_trace (add_trace st a) b = add_trace st (a ++ b).
Proof. unfold add_trace. simpl. rewrite app_assoc. reflexivity. Qed.

Section Runs.

Variable env : World.

Lemma map_calls_run op : forall ts ss pos st,
  sessions_of (heap st) ts = map Some ss ->
  map_calls op pos ts st
  = (Normal (promises op pos ss), add_trace st (map EvCall (promises op pos ss))).
Proof.
  induction ts as [|t ts IH]; intros ss pos st H; destruct ss as [|s ss];
    simpl in H; try discriminate.
  - simpl. unfold ret. rewrite add_trace_nil. reflexivity.
  - injection H as Hs Hrest.
    cbn [map_calls promises map]. unfold bind at 1. unfold call_on_session.
    unfold bind at 1. unfold read. rewrite Hs.
    unfold bind at 1. unfold emit, ret.
    unfold bind at 1.
    change {| heap := heap st; nextLoc := nextLoc st; nextSession := nextSession st;
              req := req st;
              trace := trace st ++ [EvCall {| pop := op; ppos := pos; psession := s |}] |}
      with (add_trace st [EvCall {| pop := op; ppos := pos; psession := s |}]).
    rewrite (IH ss (S pos)) by exact Hrest.
    rewrite add_trace_app. reflexivity.
Qed.

(** Waiting for a fan-out never rejects, so its [catch] handler is not run. *)
Lemma allSettled_fulfilled ps st :
  exists states, fst (Promise_allSettled env ps st) = Normal (Fulfilled states).
Proof. eexists. reflexivity. Qed.

Lemma commitAllTransactions_run ts ss st :
  sessions_of (heap st) ts = map Some ss ->
  exists rest,
    commitAllTransactions env ts st = (Normal rest, add_trace st (fanout Commit ss)) /\
    forall st', rest st' = (Normal tt, add_trace st' (settle_events env Commit ss)).
Proof.
  intros H. eexists. split.
  - unfold commitAllTransactions, async, bind.
    rewrite (map_calls_run Commit ts ss 0 st H). reflexivity.
  - intros st'. reflexivity.
Qed.

Lemma endAllSessions_run ts ss st :
  sessions_of (heap st) ts = map Some ss ->
  exists rest,
    endAllSessions env ts st = (Normal rest, add_trace st (fanout End_ ss)) /\
    forall st', rest st' = (Normal tt, add_trace st' (settle_events env End_ ss)).
Proof.
  intros H. eexists. split.
  - unfold endAllSessions, async, bind.
    rewrite (map_calls_run End_ ts ss 0 st H). reflexivity.
  - intros st'. reflexivity.
Qed.

(** The abort path: what it leaves in the trace, and what it rejects with. *)
Lemma handleTransactionExceptions_run ts ss e st :
  sessions_of (heap st) ts = map Some ss ->
  exists rest,
    handleTransactionExceptions env ts e st = (Normal rest, add_trace st (fanout Abort ss)) /\
    forall st', heap st' = heap st ->
      rest st' = (match handleNestException env e with
                  | Normal translated => Throw translated
                  | Throw x => Throw x
                  end,
                  add_trace st' (settle_events env Abort ss ++ fanout End_ ss
                                 ++ settle_events env End_ ss)).
Proof.
  intros H. eexists. split.
  - unfold handleTransactionExceptions, async, bind.
    rewrite (map_calls_run Abort ts ss 0 st H). reflexivity.
  - intros st' Hh.
    cbv beta iota delta [Promise_allSettled bind emit_all ret promise_catch].
    match goal with |- context [endAllSessions env ts ?s] =>
      destruct (endAllSessions_run ts ss s) as [rest [Hrun Hrest]];
        [simpl; rewrite Hh; exact H | rewrite Hrun]
    end.
    unfold await. rewrite Hrest. unfold lift, throw.
    fold (settle_events env Abort ss). fold (add_trace st' (settle_events env Abort ss)).
    rewrite !add_trace_app.
    destruct (handleNestException env e); reflexivity.
Qed.

End Runs.

Section Serving.

Variable env : World.

Ltac step :=
  cbv beta iota delta [serve intercept try_catch bind ret get set_req_transactions
    set_req_isUsingTransaction set_req subscribe catchError tap handle emit async await
    floating innerFrom throwError lift throw fst snd];
  cbn [heap nextLoc nextSession req trace transactions isUsingTransaction].

(** The whole run of a request whose sessions were opened and whose handler
    returned [v]. *)
Lemma serve_success this next st ts st1 ss v :
  generateTransactions env this st = (Normal ts, st1) ->
  sessions_of (heap st1) ts = map Some ss ->
  next (attached ts) (heap st1) = NextComplete v ->
  serve env this next st
  = (Normal tt,
     {| heap := heap st1; nextLoc := nextLoc st1; nextSession := nextSession st1;
        req := attached ts;
        trace := trace st1 ++
                 EvHandle (attached ts) :: fanout Commit ss ++ [EvNext v; EvComplete]
                 ++ settle_events env Commit ss ++ fanout End_ ss
                 ++ settle_events env End_ ss |}).
Proof.
  intros Hgen Hss Hnext.
  step. rewrite Hgen. step.
  change {| transactions := Some ts; isUsingTransaction := Some true |} with (attached ts).
  rewrite Hnext. step.
  match goal with |- context [commitAllTransactions env ts ?s] =>
    destruct (commitAllTransactions_run env ts ss s Hss) as [rest [Hrun Hrest]];
      rewrite Hrun
  end.
  step. rewrite Hrest. step.
  match goal with |- context [endAllSessions env ts ?s] =>
    destruct (endAllSessions_run env ts ss s Hss) as [rest' [Hrun' Hrest']];
      rewrite Hrun'
  end.
  rewrite Hrest'. unfold add_trace. step.
  repeat rewrite <- app_assoc. reflexivity.
Qed.

(** The whole run of a request whose sessions were opened and whose handler
    threw [e]. *)
Lemma serve_failure this next st ts st1 ss e :
  generateTransactions env this st = (Normal ts, st1) ->
  sessions_of (heap st1) ts = map Some ss ->
  next (attached ts) (heap st1) = Error e ->
  serve env this next st
  = (Normal tt,
     {| heap := heap st1; nextLoc := nextLoc st1; nextSession := nextSession st1;
        req := attached ts;
        trace := trace st1 ++
                 EvHandle (attached ts) :: fanout Abort ss ++ settle_events env Abort ss
                 ++ fanout End_ ss ++ settle_events env End_ ss
                 ++ [EvError (match handleNestException env e with
                              | Normal translated => translated
                              | Throw x => x
                              end)] |}).
Proof.
  intros Hgen Hss Hnext.
  step. rewrite Hgen. step.
  change {| transactions := Some ts; isUsingTransaction := Some true |} with (attached ts).
  rewrite Hnext. step.
  match goal with |- context [handleTransactionExceptions env ts e ?s] =>
    destruct (handleTransactionExceptions_run env ts ss e s Hss) as [rest [Hrun Hrest]];
      rewrite Hrun
  end.
  rewrite Hrest by reflexivity.
  unfold add_trace. step.
  destruct (handleNestException env e); step;
    repeat rewrite <- app_assoc; reflexivity.
Qed.

(** The degraded path: generation threw [e]. *)
Lemma serve_degraded this next st st1 e :
  generateTransactions env this st = (Throw e, st1) ->
  serve env this next st
  = (Normal tt,
     add_trace st1
       (EvHandle (req st1) ::
        match next (req st1) (heap st1) with
        | NextComplete v => [EvNext v; EvComplete]
        | Error _ =>
            [EvError (match toString env e with
                      | Normal s => JString ("Failed To Acquire Mongoose lock " ++ s)
                      | Throw r => r
                      end)]
        end)).
Proof.
  intros Hgen.
  step. rewrite Hgen. step.
  destruct (next (req st1) (heap st1)); step.
  - unfold add_trace. repeat rewrite <- app_assoc. reflexivity.
  - destruct (toString env e); step; unfold add_trace;
      repeat rewrite <- app_assoc; reflexivity.
Qed.

End Serving.

(** ** Generating the sessions *)

Section Generation.

Variable env : World.
Variable this : TransactionInterceptor.

Ltac gstep :=
  cbv beta iota delta [bind getConnection ret throw read startSession
    defaultTransactionOptions_of startTransaction emit write_session alloc];
  cbn [heap nextLoc nextSession req trace].

Lemma heap_alloc_same h l t : heap_alloc h l t l = t.
Proof. unfold heap_alloc. rewrite Nat.eqb_refl. reflexivity. Qed.

Lemma generate_each_success : forall todo acc st ts st1,
  generate_each env this todo acc st = (Normal ts, st1) ->
  NoDup todo ->
  exists gen,
    ts = (acc ++ todo)%list /\
    trace st1 = (trace st ++ gen)%list /\
    Forall (fun s => nextSession st <= s) (opened gen) /\
    NoDup (opened gen) /\
    (forall e, In e gen -> is_open_event e = true) /\
    req st1 = req st /\
    sessions_of (heap st1) todo = map Some (opened gen) /\
    (forall l, ~ In l todo -> heap st1 l = heap st l).
Proof.
  induction todo as [|t todo IH]; intros acc st ts st1 Hrun Hnd.
  - cbn [generate_each] in Hrun. unfold ret in Hrun. injection Hrun as <- <-.
    exists []. rewrite !app_nil_r. simpl.
    repeat split; auto using NoDup_nil; try (intros ? []).
  - cbn [generate_each] in Hrun. revert Hrun. gstep.
    destruct (databaseGlobalConnection this) as [c|]; [|discriminate].
    gstep.
    destruct (startSession_rejects env (nextSession st)) as [r|]; [discriminate|].
    gstep.
    destruct (sessionOptions (heap st t)) as [o|] eqn:Ho; [|discriminate].
    gstep.
    destruct (startTransaction_throws env (nextSession st)) as [r|]; [discriminate|].
    gstep. intros Hrun.
    inversion Hnd as [|? ? Hnotin Hnd']; subst.
    destruct (IH _ _ _ _ Hrun Hnd') as (gen & Hts & Htr & Hge & Hndss & Hev & Hreq & Hss & Hframe).
    cbn [heap nextLoc nextSession req trace] in *.
    exists (EvStartSession (nextSession st) (Some o)
            :: EvStartTransaction (nextSession st) (defaultTransactionOptions o) :: gen).
    cbn [opened flat_map app].
    repeat split.
    + rewrite Hts, <- app_assoc. reflexivity.
    + rewrite Htr, <- !app_assoc. reflexivity.
    + constructor; [lia|]. eapply Forall_impl; [|exact Hge]. simpl. intros; lia.
    + constructor; [|exact Hndss].
      intros Hin. rewrite Forall_forall in Hge. specialize (Hge _ Hin). lia.
    + intros e [<-|[<-|He]]; auto.
    + exact Hreq.
    + cbn [sessions_of map]. f_equal; [|exact Hss].
      rewrite (Hframe t Hnotin). unfold heap_set_session. rewrite Nat.eqb_refl. reflexivity.
    + intros l Hl. rewrite Hframe by (intros X; apply Hl; right; exact X).
      unfold heap_set_session. destruct (Nat.eqb l t) eqn:E; [|reflexivity].
      apply Nat.eqb_eq in E. subst. exfalso. apply Hl. left. reflexivity.
Qed.

Lemma generateTransactions_test st :
  is_test env = true -> generateTransactions env this st = (Normal [], st).
Proof. intros H. unfold generateTransactions. rewrite H. reflexivity. Qed.

(** A generation that returns has opened one session for each instance of
    the list it returns, and the instances hold these sessions. *)
Lemma generateTransactions_success st ts st1 :
  generateTransactions env this st = (Normal ts, st1) ->
  NoDup (transactionsToBeGeneratedInInterceptor this) ->
  exists gen,
    trace st1 = (trace st ++ gen)%list /\
    sessions_of (heap st1) ts = map Some (opened gen) /\
    NoDup (opened gen) /\
    (forall e, In e gen -> is_open_event e = true) /\
    req st1 = req st /\
    (is_test env = false -> ts <> []).
Proof.
  unfold generateTransactions. intros Hrun Hnd.
  destruct (is_test env).
  - unfold ret in Hrun. injection Hrun as <- <-.
    exists []. rewrite app_nil_r. simpl.
    repeat split; auto using NoDup_nil; try (intros ? []); discriminate.
  - destruct (Nat.eqb (length (transactionsToBeGeneratedInInterceptor this)) 0) eqn:Elen.
    + revert Hrun. gstep.
      destruct (databaseGlobalConnection this) as [c|]; [|discriminate].
      gstep. rewrite !heap_alloc_same. cbn [sessionOptions].
      destruct (startSession_rejects env (nextSession st)) as [r|]; [discriminate|].
      gstep.
      destruct (startTransaction_throws env (nextSession st)) as [r|]; [discriminate|].
      gstep. intros Hrun. injection Hrun as <- <-.
      cbn [heap nextLoc nextSession req trace].
      eexists [EvStartSession (nextSession st) _; EvStartTransaction (nextSession st) _].
      cbn [opened flat_map app].
      repeat split.
      * rewrite <- app_assoc. reflexivity.
      * cbn [sessions_of map]. unfold heap_set_session. rewrite Nat.eqb_refl. reflexivity.
      * repeat constructor. intros [].
      * intros e [<-|[<-|[]]]; reflexivity.
      * discriminate.
    + destruct (generate_each_success _ _ _ _ _ Hrun Hnd)
        as (gen & Hts & Htr & _ & Hndss & Hev & Hreq & Hss & _).
      simpl in Hts. subst ts. exists gen. repeat split; auto.
      intros _ E. rewrite E in Elen. discriminate.
Qed.

(** Generation never writes to the request, whether it returns or throws. *)
Lemma generate_each_req : forall todo acc st,
  req (snd (generate_each env this todo acc st)) = req st.
Proof.
  induction todo as [|t todo IH]; intros acc st; cbn [generate_each]; [reflexivity|].
  gstep.
  destruct (databaseGlobalConnection this) as [c|]; [|reflexivity].
  gstep.
  destruct (startSession_rejects env (nextSession st)) as [r|]; [reflexivity|].
  gstep.
  destruct (sessionOptions (heap st t)) as [o|]; [|reflexivity].
  gstep.
  destruct (startTransaction_throws env (nextSession st)) as [r|]; [reflexivity|].
  gstep. rewrite IH. reflexivity.
Qed.

Lemma generateTransactions_req st :
  req (snd (generateTransactions env this st)) = req st.
Proof.
  unfold generateTransactions.
  destruct (is_test env); [reflexivity|].
  destruct (Nat.eqb (length (transactionsToBeGeneratedInInterceptor this)) 0).
  - gstep.
    destruct (databaseGlobalConnection this) as [c|]; [|reflexivity].
    gstep. rewrite !heap_alloc_same. cbn [sessionOptions].
    destruct (startSession_rejects env (nextSession st)) as [r|]; [reflexivity|].
    gstep.
    destruct (startTransaction_throws env (nextSession st)) as [r|]; reflexivity.
  - apply generate_each_req.
Qed.

(** Without a connection no session is opened: generation throws at once. *)
Lemma generateTransactions_unconnected st :
  is_test env = false -> databaseGlobalConnection this = None ->
  exists st1,
    generateTransactions env this st = (Throw (new_Error "No connections found"), st1) /\
    trace st1 = trace st /\ req st1 = req st /\ nextSession st1 = nextSession st.
Proof.
  intros Ht Hc. unfold generateTransactions. rewrite Ht.
  destruct (transactionsToBeGeneratedInInterceptor this) as [|t todo]; cbn [length Nat.eqb].
  - gstep. rewrite Hc. eexists. split; [reflexivity|]. auto.
  - cbn [generate_each]. gstep. rewrite Hc. eexists. split; [reflexivity|]. auto.
Qed.

(** With a connection and a data store that accepts, the loop opens a session
    for each instance of its list, whatever their names. *)
Lemma generate_each_accepts c :
  databaseGlobalConnection this = Some c ->
  (forall s, startSession_rejects env s = None) ->
  (forall s, startTransaction_throws env s = None) ->
  forall todo acc st,
    (forall l, In l todo -> sessionOptions (heap st l) <> None) ->
    exists st1 gen,
      generate_each env this todo acc st = (Normal (acc ++ todo)%list, st1) /\
      trace st1 = (trace st ++ gen)%list /\
      length (opened gen) = length todo.
Proof.
  intros Hc Hopen Hstart.
  induction todo as [|t todo IH]; intros acc st Hopts; cbn [generate_each].
  - exists st, []. rewrite !app_nil_r. auto.
  - gstep. rewrite Hc. gstep. rewrite Hopen. gstep.
    destruct (sessionOptions (heap st t)) as [o|] eqn:Ho;
      [|exfalso; apply (Hopts t); [left; reflexivity | exact Ho]].
    gstep. rewrite Hstart. gstep.
    match goal with |- context [generate_each env this todo ?a ?s] =>
      destruct (IH a s) as (st1 & gen & Hrun & Htr & Hlen)
    end.
    { intros l Hl. cbn [heap]. unfold heap_set_session.
      destruct (Nat.eqb l t); cbn [sessionOptions].
      - rewrite Ho. discriminate.
      - apply Hopts. right. exact Hl. }
    rewrite Hrun. cbn [trace] in Htr.
    exists st1, (EvStartSession (nextSession st) (Some o)
                 :: EvStartTransaction (nextSession st) (defaultTransactionOptions o) :: gen).
    repeat split.
    + rewrite <- app_assoc. reflexivity.
    + rewrite Htr, <- !app_assoc. reflexivity.
    + cbn [opened flat_map app length]. fold (opened gen). rewrite Hlen. reflexivity.
Qed.

End Generation.

(** ** The error translator *)

Lemma instanceof_object e C : instanceof e C = true -> exists classes props, e = JObject classes props.
Proof. destruct e; simpl; try discriminate. eauto. Qed.

Lemma handleNestException_total env e : exists r, handleNestException env e = Normal r.
Proof.
  unfold handleNestException.
  destruct (instanceof e "MongooseError") eqn:E1.
  { destruct (instanceof_object _ _ E1) as (c & p & ->). simpl. eauto. }
  destruct (isAxiosError env e) eqn:E2.
  { destruct e; simpl in *; try discriminate; eauto. }
  destruct (instanceof e "TypeGuardError") eqn:E3.
  { destruct (instanceof_object _ _ E3) as (c & p & ->). simpl. eauto. }
  eauto.
Qed.

(** C4: the translator applies its rules in order: an instance of the data
    store client's error class becomes an internal-server error whose summary
    and cause are both the error's message and whose description is its stack;
    otherwise an axios error becomes the same kind of error with the axios
    error's cause; otherwise a type-guard error becomes a bad-request error
    carrying its message; otherwise the error is returned as it is.  The
    function returns on every value and touches no state. *)
Theorem C4_translation_rules env (e : JsValue) :
  (instanceof e "MongooseError" = true ->
   exists message stack,
     get_prop env e "message" = Normal message /\
     get_prop env e "stack" = Normal stack /\
     handleNestException env e
     = Normal (JHttpException InternalServerErrorException message
                 (Some {| cause := message; description := stack |}))) /\
  (instanceof e "MongooseError" = false -> isAxiosError env e = true ->
   exists message cause_ stack,
     get_prop env e "message" = Normal message /\
     get_prop env e "cause" = Normal cause_ /\
     get_prop env e "stack" = Normal stack /\
     handleNestException env e
     = Normal (JHttpException InternalServerErrorException message
                 (Some {| cause := cause_; description := stack |}))) /\
  (instanceof e "MongooseError" = false -> isAxiosError env e = false ->
   instanceof e "TypeGuardError" = true ->
   exists message,
     get_prop env e "message" = Normal message /\
     handleNestException env e
     = Normal (JHttpException BadRequestException message
                 (Some {| cause := e; description := message |}))) /\
  (instanceof e "MongooseError" = false -> isAxiosError env e = false ->
   instanceof e "TypeGuardError" = false ->
   handleNestException env e = Normal e) /\
  (exists r, handleNestException env e = Normal r) /\
  (forall st, snd (lift (handleNestException env e) st) = st).
Proof.
  repeat split.
  - intros E1. unfold handleNestException. rewrite E1.
    destruct (instanceof_object _ _ E1) as (c & p & ->). simpl. eauto.
  - intros E1 E2. unfold handleNestException. rewrite E1, E2.
    destruct e; simpl in *; try discriminate; eauto 10.
  - intros E1 E2 E3. unfold handleNestException. rewrite E1, E2, E3.
    destruct (instanceof_object _ _ E3) as (c & p & ->). simpl. eauto.
  - intros E1 E2 E3. unfold handleNestException. rewrite E1, E2, E3. reflexivity.
  - apply handleNestException_total.
Qed.

Lemma C4_translation_rules_witness :
  instanceof Samples.mongoose_error "MongooseError" = true /\
  handleNestException Samples.store Samples.mongoose_error
  = Normal (JHttpException InternalServerErrorException (JString "Cast to ObjectId failed")
              (Some {| cause := JString "Cast to ObjectId failed";
                       description := JString "at save" |})).
Proof.
  split; [reflexivity|].
  destruct (C4_translation_rules Samples.store Samples.mongoose_error) as [H _].
  destruct (H eq_refl) as (message & stack & Hm & Hs & Hr).
  rewrite Hr. simpl in Hm, Hs. injection Hm as <-. injection Hs as <-. reflexivity.
Defined.

(** ** The accessor *)

(** C6: on a request whose flag is not set to true, the accessor throws the
    internal-server error of misuse, whatever the name asked for. *)
Theorem C6_accessor_misuse (data : option string) (r : Request) (h : Heap) :
  isUsingTransaction r <> Some true ->
  TransactionParam data r h = Throw misuse.
Proof.
  intros H. unfold TransactionParam.
  destruct (isUsingTransaction r) as [[|]|]; try reflexivity. congruence.
Qed.

Lemma C6_accessor_misuse_witness :
  TransactionParam (Some "analytics") Samples.fresh_request Samples.two_templates = Throw misuse.
Proof.
  apply (C6_accessor_misuse (Some "analytics") Samples.fresh_request Samples.two_templates).
  simpl. discriminate.
Defined.

Lemma find_none_session (f : loc -> bool) ts :
  (forall t, In t ts -> f t = false) -> find f ts = None.
Proof.
  induction ts as [|x ts IH]; intros H; simpl; [reflexivity|].
  rewrite (H x (or_introl eq_refl)). apply IH. intros t Ht. apply H. right. exact Ht.
Qed.

Lemma find_first (f : loc -> bool) l1 t l2 :
  (forall t', In t' l1 -> f t' = false) -> f t = true ->
  find f (l1 ++ t :: l2) = Some t.
Proof.
  induction l1 as [|x l1 IH]; intros Hl1 Hf; simpl.
  - rewrite Hf. reflexivity.
  - rewrite (Hl1 x (or_introl eq_refl)). apply IH; [|exact Hf].
    intros t' Ht'. apply Hl1. right. exact Ht'.
Qed.

(** C7: on a request the interceptor has marked, the accessor never throws;
    it returns the session of the first instance of the list that has the name
    asked for (["default"] when no name is given), and null when the list has
    no instance of that name, is empty, or is absent. *)
Theorem C7_accessor_lookup (data : option string) (r : Request) (h : Heap) :
  isUsingTransaction r = Some true ->
  let wanted := match data with Some d => d | None => "default" end in
  (exists result, TransactionParam data r h = Normal result) /\
  (forall l1 t l2,
     transactions r = Some (l1 ++ t :: l2)%list ->
     (forall t', In t' l1 -> name (h t') <> wanted) ->
     name (h t) = wanted ->
     TransactionParam data r h = Normal (session (h t))) /\
  (forall ts,
     transactions r = Some ts -> (forall t, In t ts -> name (h t) <> wanted) ->
     TransactionParam data r h = Normal None) /\
  (transactions r = None -> TransactionParam data r h = Normal None).
Proof.
  intros Hflag wanted. unfold TransactionParam. rewrite Hflag. fold wanted.
  repeat split.
  - eauto.
  - intros l1 t l2 Hts Hl1 Hname. rewrite Hts.
    rewrite (find_first _ l1 t l2).
    + reflexivity.
    + intros t' Ht'. apply String.eqb_neq. apply Hl1. exact Ht'.
    + apply String.eqb_eq. exact Hname.
  - intros ts Hts Hnone. rewrite Hts. rewrite find_none_session; [reflexivity|].
    intros t Ht. apply String.eqb_neq. apply Hnone. exact Ht.
  - intros Hts. rewrite Hts. reflexivity.
Qed.

(** ** The life of the sessions of one request *)

Lemma count_cons P e (l : list Event) : count P (e :: l) = (if P e then 1 else 0) + count P l.
Proof. unfold count. simpl. destruct (P e); reflexivity. Qed.

Lemma opened_app a b : opened (a ++ b) = (opened a ++ opened b)%list.
Proof. apply flat_map_app. Qed.

Lemma opened_none l : (forall e, In e l -> is_open_event e = false) -> opened l = [].
Proof.
  induction l as [|x l IH]; intros H; [reflexivity|].
  cbn [opened flat_map]. fold (opened l).
  rewrite IH by (intros e He; apply H; right; exact He).
  specialize (H x (or_introl eq_refl)). destruct x; simpl in *; try discriminate; reflexivity.
Qed.

Lemma filter_all {A} (f : A -> bool) l : (forall x, In x l -> f x = true) -> filter f l = l.
Proof.
  induction l as [|x l IH]; intros H; [reflexivity|]. simpl.
  rewrite (H x (or_introl eq_refl)). f_equal. apply IH. intros y Hy. apply H. right. exact Hy.
Qed.

Lemma filter_none {A} (f : A -> bool) l : (forall x, In x l -> f x = false) -> filter f l = [].
Proof.
  induction l as [|x l IH]; intros H; [reflexivity|]. simpl.
  rewrite (H x (or_introl eq_refl)). apply IH. intros y Hy. apply H. right. exact Hy.
Qed.

(** The shape of the events of each part of a trace. *)
Ltac shape :=
  match goal with
  | H : In ?e (fanout _ _) |- _ =>
      let p := fresh "p" in let Hp := fresh "Hp" in
      apply in_fanout in H; destruct H as (p & -> & Hp)
  | H : In ?e (settle_events _ _ _) |- _ =>
      let p := fresh "p" in let r := fresh "r" in let Hp := fresh "Hp" in
      apply in_settle_events in H; destruct H as (p & r & -> & Hp)
  | H : In ?e ?l, Hl : forall e, In e ?l -> _ = true |- _ =>
      specialize (Hl _ H); destruct e; try discriminate
  end.

Section Lifecycle.

Variable env : World.
Variable op : Op.
Variables (ss : list ClientSession) (gen before after : list Event) (r : Request).

Hypothesis op_not_end : op <> End_.
Hypothesis distinct : NoDup ss.
Hypothesis gen_opened : opened gen = ss.
Hypothesis gen_events : forall e, In e gen -> is_open_event e = true.
Hypothesis before_events : forall e, In e before -> is_notification e = true.
Hypothesis after_events : forall e, In e after -> is_notification e = true.







Lemma lifecycle_no_log : count is_log (request_events env op ss gen before after r) = 0.
Proof using All.
  unfold request_events. apply count_none. intros e He.
  apply in_app_or in He. destruct He as [He|[<-|He]]; [shape; reflexivity | reflexivity |].
  repeat (apply in_app_or in He; destruct He as [He|He]); shape; reflexivity.
Qed.

Lemma lifecycle_handled_once : count is_handle (request_events env op ss gen before after r) = 1.
Proof using All.
  unfold request_events. rewrite count_app, count_cons. cbn [is_handle].
  rewrite (count_none _ gen) by (intros; shape; reflexivity).
  rewrite count_none; [reflexivity|]. intros e He.
  repeat (apply in_app_or in He; destruct He as [He|He]); shape; reflexivity.
Qed.

End Lifecycle.

(** ** The interceptor around a request *)

Lemma is_test_true env : NODE_ENV env = Some "test" -> is_test env = true.
Proof. intros H. unfold is_test. rewrite H. reflexivity. Qed.

Lemma sessions_length h ts (ss : list ClientSession) :
  sessions_of h ts = map Some ss -> length ss = length ts.
Proof.
  intros H. apply (f_equal (@length _)) in H. unfold sessions_of in H.
  rewrite !length_map in H. symmetry. exact H.
Qed.

(** The events of a request whose handler returned, in full. *)
Lemma success_events env this next st ts st1 v :
  NoDup (transactionsToBeGeneratedInInterceptor this) ->
  generateTransactions env this st = (Normal ts, st1) ->
  next (attached ts) (heap st1) = NextComplete v ->
  exists gen,
    trace (snd (serve env this next st))
    = (trace st ++ request_events env Commit (opened gen) gen [EvNext v; EvComplete] []
                     (attached ts))%list /\
    NoDup (opened gen) /\
    (forall e, In e gen -> is_open_event e = true) /\
    length (opened gen) = length ts /\
    (is_test env = false -> ts <> []).
Proof.
  intros Hnd Hgen Hnext.
  destruct (generateTransactions_success env this st ts st1 Hgen Hnd)
    as (gen & Htr & Hss & Hndss & Hev & _ & Hne).
  exists gen. rewrite (serve_success env this next st ts st1 (opened gen) v Hgen Hss Hnext).
  cbn [snd trace]. rewrite Htr. unfold request_events.
  rewrite app_nil_r, <- !app_assoc.
  repeat split; auto. eapply sessions_length; eauto.
Qed.

(** The events of a request whose handler threw [e], in full. *)
Lemma failure_events env this next st ts st1 e :
  NoDup (transactionsToBeGeneratedInInterceptor this) ->
  generateTransactions env this st = (Normal ts, st1) ->
  next (attached ts) (heap st1) = Error e ->
  exists gen translated,
    handleNestException env e = Normal translated /\
    trace (snd (serve env this next st))
    = (trace st ++ request_events env Abort (opened gen) gen [] [EvError translated]
                     (attached ts))%list /\
    NoDup (opened gen) /\
    (forall e, In e gen -> is_open_event e = true) /\
    length (opened gen) = length ts /\
    (is_test env = false -> ts <> []).
Proof.
  intros Hnd Hgen Hnext.
  destruct (generateTransactions_success env this st ts st1 Hgen Hnd)
    as (gen & Htr & Hss & Hndss & Hev & _ & Hne).
  destruct (handleNestException_total env e) as [translated Ht].
  exists gen, translated.
  rewrite (serve_failure env this next st ts st1 (opened gen) e Hgen Hss Hnext).
  cbn [snd trace]. rewrite Htr, Ht. unfold request_events.
  rewrite <- !app_assoc.
  repeat split; auto. eapply sessions_length; eauto.
Qed.

Lemma notifications_success v e : In e [EvNext v; EvComplete] -> is_notification e = true.
Proof. intros [<-|[<-|[]]]; reflexivity. Qed.


Lemma notifications_none e : In e (@nil Event) -> is_notification e = true.
Proof. intros []. Qed.

(** No failure of a commit or of an end-session reaches the log or the caller:
    the request of a handler that returned logs nothing. *)
Lemma success_logs_nothing env this next st ts st1 v :
  NoDup (transactionsToBeGeneratedInInterceptor this) ->
  generateTransactions env this st = (Normal ts, st1) ->
  next (attached ts) (heap st1) = NextComplete v ->
  exists new,
    trace (snd (serve env this next st)) = (trace st ++ new)%list /\
    count is_log new = 0.
Proof.
  intros Hnd Hgen Hnext.
  destruct (success_events env this next st ts st1 v Hnd Hgen Hnext)
    as (gen & Htr & Hndss & Hev & Hlen & Hne).
  eexists. split; [exact Htr|].
  assert (Hop : Commit <> End_) by discriminate.
  exact (lifecycle_no_log env Commit (opened gen) gen _ _ (attached ts) Hop Hndss eq_refl
           Hev (notifications_success v) notifications_none).
Qed.

(** C5: under [NODE_ENV=test] the request consists of the handler's
    invocation and the notifications to the caller: no session is opened and
    the data store is never called; the handler sees, and the request keeps,
    an empty list of transactions with the flag set to true, on which the
    accessor returns null for every name, whatever the handler does. *)
Theorem C5_bypass_mode env this next st :
  NODE_ENV env = Some "test" ->
  exists notifications,
    trace (snd (serve env this next st))
    = (trace st ++ EvHandle (attached []) :: notifications)%list /\
    (forall e, In e notifications -> is_notification e = true) /\
    (forall e, In e (EvHandle (attached []) :: notifications) -> is_store_event e = false) /\
    nextSession (snd (serve env this next st)) = nextSession st /\
    transactions (req (snd (serve env this next st))) = Some [] /\
    isUsingTransaction (req (snd (serve env this next st))) = Some true /\
    (forall data h, TransactionParam data (attached []) h = Normal None).
Proof.
  intros Henv. apply is_test_true in Henv.
  pose proof (generateTransactions_test env this st Henv) as Hgen.
  destruct (next (attached []) (heap st)) as [v|e] eqn:Hnext.
  - rewrite (serve_success env this next st [] st [] v Hgen eq_refl Hnext).
    exists [EvNext v; EvComplete]. cbn.
    repeat split; auto.
    + intros e [<-|[<-|[]]]; reflexivity.
    + intros e [<-|[<-|[<-|[]]]]; reflexivity.
  - rewrite (serve_failure env this next st [] st [] e Hgen eq_refl Hnext).
    eexists [EvError _]. cbn.
    repeat split; auto.
    + intros x [<-|[]]; reflexivity.
    + intros x [<-|[<-|[]]]; reflexivity.
Qed.

Lemma is_test_false env : NODE_ENV env <> Some "test" -> is_test env = false.
Proof.
  intros H. unfold is_test. destruct (NODE_ENV env) as [e|]; [|reflexivity].
  apply String.eqb_neq. congruence.
Qed.

(** C8: in normal mode without a data-store connection, generation throws
    before any session is opened; the handler is still invoked, on the request
    as it came; when the handler fails the caller receives the string
    "Failed To Acquire Mongoose lock " followed by the connection error, and
    when it returns the caller receives its value and no error. *)
Theorem C8_connection_unavailable env this next st :
  NODE_ENV env <> Some "test" ->
  databaseGlobalConnection this = None ->
  exists st1,
    generateTransactions env this st = (Throw (new_Error "No connections found"), st1) /\
    nextSession (snd (serve env this next st)) = nextSession st /\
    trace (snd (serve env this next st))
    = (trace st ++ EvHandle (req st) ::
         match next (req st) (heap st1) with
         | NextComplete v => [EvNext v; EvComplete]
         | Error _ =>
             [EvError (JString "Failed To Acquire Mongoose lock Error: No connections found")]
         end)%list.
Proof.
  intros Henv Hconn. apply is_test_false in Henv.
  destruct (generateTransactions_unconnected env this st Henv Hconn)
    as (st1 & Hgen & Htr & Hreq & Hns).
  exists st1. split; [exact Hgen|].
  rewrite (serve_degraded env this next st st1 _ Hgen).
  cbn [snd add_trace trace nextSession]. rewrite Htr, Hreq, Hns.
  split; [reflexivity|].
  destruct (next (req st) (heap st1)); reflexivity.
Qed.

(** C10: when generation throws, the interceptor writes nothing to the
    request: the handler is invoked on the request as it came and the request
    is left as it came, so that, the flag not being set, the accessor throws
    the misuse error for every name. *)
Theorem C10_degraded_path_attaches_nothing env this next st e st1 :
  generateTransactions env this st = (Throw e, st1) ->
  isUsingTransaction (req st) <> Some true ->
  exists notifications,
    trace (snd (serve env this next st))
    = (trace st1 ++ EvHandle (req st) :: notifications)%list /\
    (forall x, In x notifications -> is_notification x = true) /\
    req (snd (serve env this next st)) = req st /\
    (forall data h, TransactionParam data (req st) h = Throw misuse).
Proof.
  intros Hgen Hflag.
  assert (Hreq : req st1 = req st).
  { pose proof (generateTransactions_req env this st) as H. rewrite Hgen in H. exact H. }
  rewrite (serve_degraded env this next st st1 e Hgen).
  cbn [snd add_trace trace req]. rewrite Hreq.
  eexists. split; [reflexivity|].
  split; [|split; [reflexivity|]].
  - intros x Hx. destruct (next (req st) (heap st1)).
    + destruct Hx as [<-|[<-|[]]]; reflexivity.
    + destruct Hx as [<-|[]]; reflexivity.
  - intros data h. unfold TransactionParam.
    destruct (isUsingTransaction (req st)) as [[|]|]; try reflexivity. congruence.
Qed.

(** ** The sample requests *)

Lemma C5_bypass_mode_witness :
  exists notifications,
    trace (snd (serve Samples.test_store Samples.single Samples.fails
                  (Samples.initial Samples.two_templates)))
    = EvHandle (attached []) :: notifications /\
    TransactionParam (Some "default") (attached []) Samples.two_templates = Normal None.
Proof.
  destruct (C5_bypass_mode Samples.test_store Samples.single Samples.fails
              (Samples.initial Samples.two_templates) eq_refl)
    as (notifications & Htr & _ & _ & _ & _ & _ & Hparam).
  exists notifications. split; [exact Htr | apply Hparam].
Defined.

Lemma C7_accessor_lookup_witness :
  TransactionParam (Some "analytics") (attached [0; 1])
    (heap (snd (generateTransactions Samples.store Samples.multi
                  (Samples.initial Samples.two_templates))))
  = Normal (Some 1).
Proof.
  destruct (C7_accessor_lookup (Some "analytics") (attached [0; 1])
              (heap (snd (generateTransactions Samples.store Samples.multi
                            (Samples.initial Samples.two_templates))))
              eq_refl)
    as (_ & Hfound & _).
  apply (Hfound [0] 1 [] eq_refl).
  - intros t' [<-|[]] H. vm_compute in H. discriminate H.
  - vm_compute. reflexivity.
Defined.

Lemma C8_connection_unavailable_witness :
  delivered (trace (snd (serve Samples.store Samples.unconnected Samples.fails
                           (Samples.initial Samples.two_templates))))
  = [EvError (JString "Failed To Acquire Mongoose lock Error: No connections found")].
Proof.
  destruct (C8_connection_unavailable Samples.store Samples.unconnected Samples.fails
              (Samples.initial Samples.two_templates))
    as (st1 & _ & _ & Htr).
  - simpl. discriminate.
  - reflexivity.
  - rewrite Htr. vm_compute. reflexivity.
Defined.

Lemma C10_degraded_path_attaches_nothing_witness :
  req (snd (serve Samples.store Samples.unconnected Samples.succeeds
              (Samples.initial Samples.two_templates))) = Samples.fresh_request /\
  TransactionParam None Samples.fresh_request Samples.two_templates = Throw misuse.
Proof.
  destruct (C10_degraded_path_attaches_nothing Samples.store Samples.unconnected
              Samples.succeeds (Samples.initial Samples.two_templates)
              (new_Error "No connections found")
              (snd (generateTransactions Samples.store Samples.unconnected
                      (Samples.initial Samples.two_templates))))
    as (notifications & _ & _ & Hreq & Hparam).
  - reflexivity.
  - simpl. discriminate.
  - split; [exact Hreq | apply Hparam].
Defined.

(** C9, on the code: the commit of session [0] is rejected, that of session
    [1] is fulfilled, both sessions are ended and the caller receives the
    handler's value, but nothing is logged.  The same holds with the single
    default session of an interceptor built by the constructor. *)
Theorem C9_rejected_commit_is_not_logged :
  (let tr := trace (snd (serve Samples.store Samples.multi Samples.succeeds
                           (Samples.initial Samples.two_templates))) in
   opened tr = [0; 1] /\
   rejections Commit tr = [0] /\
   settlements Commit 1 tr = 1 /\
   attempts End_ 0 tr = 1 /\ attempts End_ 1 tr = 1 /\
   delivered tr = [EvNext (JString "created"); EvComplete] /\
   logged tr = []) /\
  (let tr := trace (snd (serve Samples.store Samples.single Samples.succeeds
                           (Samples.initial Samples.two_templates))) in
   opened tr = [0] /\
   rejections Commit tr = [0] /\
   attempts End_ 0 tr = 1 /\
   delivered tr = [EvNext (JString "created"); EvComplete] /\
   logged tr = []).
Proof. vm_compute. repeat split. Qed.

(** Why the instances of the list must be distinct objects: when the list
    holds the same instance twice, the second session overwrites the first in
    the instance; session [0] is opened and never committed nor ended, and
    session [1] is committed and ended twice. *)
Remark same_instance_twice_leaks_a_session :
  let tr := trace (snd (serve Samples.store Samples.twice Samples.succeeds
                           (Samples.initial Samples.two_templates))) in
  opened tr = [0; 1] /\
  attempts Commit 0 tr = 0 /\ attempts End_ 0 tr = 0 /\
  attempts Commit 1 tr = 2 /\ attempts End_ 1 tr = 2.
Proof. vm_compute. repeat split. Qed.

(** * Further properties *)

(** ** What generation does to the instances *)

Ltac run_generation :=
  cbv beta iota delta [bind getConnection ret throw read startSession
    defaultTransactionOptions_of startTransaction emit write_session alloc];
  cbn [heap nextLoc nextSession req trace].

Lemma heap_set_session_fields h l s l' :
  name (heap_set_session h l s l') = name (h l') /\
  sessionOptions (heap_set_session h l s l') = sessionOptions (h l').
Proof.
  unfold heap_set_session. destruct (Nat.eqb l' l) eqn:E; [|auto].
  apply Nat.eqb_eq in E. subst. auto.
Qed.

Lemma opening_events_ext h h' : (forall l, sessionOptions (h l) = sessionOptions (h' l)) ->
  forall ts s, opening_events h ts s = opening_events h' ts s.
Proof.
  intros H. induction ts as [|t ts IH]; intros s; simpl; [reflexivity|].
  rewrite H, IH. reflexivity.
Qed.

(** The loop over the interceptor's list, whatever its outcome. *)
Lemma generate_each_inv env this : forall todo acc st res st1,
  generate_each env this todo acc st = (res, st1) ->
  exists gen,
    trace st1 = (trace st ++ gen)%list /\
    (forall e, In e gen -> is_open_event e = true) /\
    (forall l, name (heap st1 l) = name (heap st l) /\
               sessionOptions (heap st1 l) = sessionOptions (heap st l)) /\
    (forall l, ~ In l todo -> heap st1 l = heap st l) /\
    (forall l, session (heap st l) <> None -> session (heap st1 l) <> None) /\
    (forall ts, res = Normal ts ->
       ts = (acc ++ todo)%list /\
       gen = opening_events (heap st) todo (nextSession st) /\
       nextSession st1 = nextSession st + length todo /\
       forall l, In l todo -> session (heap st1 l) <> None).
Proof.
  induction todo as [|t todo IH]; intros acc st res st1 Hrun.
  - cbn [generate_each] in Hrun. unfold ret in Hrun. injection Hrun as <- <-.
    exists []. rewrite app_nil_r.
    split; [reflexivity|]. split; [intros ? []|]. split; [auto|]. split; [auto|].
    split; [auto|].
    intros ts Hts. injection Hts as <-. rewrite app_nil_r. simpl.
    repeat split; auto.
  - cbn [generate_each] in Hrun. revert Hrun. run_generation.
    destruct (databaseGlobalConnection this) as [c|].
    2:{ intros Hrun. injection Hrun as <- <-. exists []. rewrite app_nil_r.
        repeat split; auto; try (intros ? []); discriminate. }
    run_generation.
    destruct (startSession_rejects env (nextSession st)) as [r|].
    { intros Hrun. injection Hrun as <- <-. exists []. cbn [trace heap]. rewrite app_nil_r.
      repeat split; auto; try (intros ? []); discriminate. }
    run_generation.
    destruct (sessionOptions (heap st t)) as [o|] eqn:Ho.
    2:{ intros Hrun. injection Hrun as <- <-.
        exists [EvStartSession (nextSession st) None]. cbn [trace heap].
        repeat split; auto; try discriminate.
        intros e [<-|[]]. reflexivity. }
    run_generation.
    destruct (startTransaction_throws env (nextSession st)) as [r|].
    { intros Hrun. injection Hrun as <- <-.
      exists [EvStartSession (nextSession st) (Some o)]. cbn [trace heap].
      repeat split; auto; try discriminate.
      intros e [<-|[]]. reflexivity. }
    run_generation. intros Hrun.
    destruct (IH _ _ _ _ Hrun) as (gen & Htr & Hev & Hfields & Hframe & Hmono & Hok).
    cbn [heap nextLoc nextSession req trace] in *.
    exists (EvStartSession (nextSession st) (Some o)
            :: EvStartTransaction (nextSession st) (defaultTransactionOptions o) :: gen).
    split; [rewrite Htr, <- !app_assoc; reflexivity|].
    split; [intros e [<-|[<-|He]]; auto|].
    split.
    { intros l. destruct (Hfields l) as [Hn Hs].
      destruct (heap_set_session_fields (heap st) t (Some (nextSession st)) l) as [Hn' Hs'].
      split; congruence. }
    split.
    { intros l Hl. rewrite Hframe by (intros X; apply Hl; right; exact X).
      unfold heap_set_session. destruct (Nat.eqb l t) eqn:E; [|reflexivity].
      apply Nat.eqb_eq in E. subst. exfalso. apply Hl. left. reflexivity. }
    split.
    { intros l Hl. apply Hmono. unfold heap_set_session.
      destruct (Nat.eqb l t); [discriminate | exact Hl]. }
    intros ts Hres. destruct (Hok ts Hres) as (Hts & Hgen & Hns & Hset).
    split; [rewrite Hts, <- app_assoc; reflexivity|].
    split.
    { cbn [opening_events]. rewrite Ho. cbn [transaction_options]. rewrite Hgen.
      do 2 f_equal. apply opening_events_ext. intros l.
      apply heap_set_session_fields. }
    split; [cbn [length]; lia|].
    intros l [<-|Hl]; [|apply Hset; exact Hl].
    apply Hmono. unfold heap_set_session. rewrite Nat.eqb_refl. discriminate.
Qed.

Lemma sessions_of_some h : forall ts,
  (forall t, In t ts -> session (h t) <> None) ->
  exists ss, sessions_of h ts = map Some ss.
Proof.
  induction ts as [|t ts IH]; intros H.
  - exists []. reflexivity.
  - destruct IH as [ss Hss]; [intros x Hx; apply H; right; exact Hx|].
    destruct (session (h t)) as [s|] eqn:E.
    + exists (s :: ss). cbn [sessions_of map]. rewrite E. f_equal. exact Hss.
    + exfalso. apply (H t); [left; reflexivity | exact E].
Qed.

Lemma opened_opening_events h : forall ts s, opened (opening_events h ts s) = seq s (length ts).
Proof.
  induction ts as [|t ts IH]; intros s; [reflexivity|].
  cbn [opening_events opened flat_map app length seq]. f_equal. apply IH.
Qed.

(** Generation as a whole, whatever its outcome. *)
Lemma generateTransactions_inv env this st res st1 :
  generateTransactions env this st = (res, st1) ->
  exists gen,
    trace st1 = (trace st ++ gen)%list /\
    (forall e, In e gen -> is_open_event e = true) /\
    req st1 = req st /\
    (forall ts, res = Normal ts -> forall l, In l ts -> session (heap st1 l) <> None).
Proof.
  intros Hrun.
  assert (Hreq : req st1 = req st).
  { pose proof (generateTransactions_req env this st) as H. rewrite Hrun in H. exact H. }
  revert Hrun. unfold generateTransactions.
  destruct (is_test env).
  { unfold ret. intros Hrun. injection Hrun as <- <-. exists []. rewrite app_nil_r.
    split; [reflexivity|]. split; [intros ? []|]. split; [reflexivity|].
    intros ts Hts. injection Hts as <-. intros ? []. }
  destruct (Nat.eqb (length (transactionsToBeGeneratedInInterceptor this)) 0).
  - run_generation.
    destruct (databaseGlobalConnection this) as [c|].
    2:{ intros Hrun. injection Hrun as <- <-. exists []. cbn [trace]. rewrite app_nil_r.
        split; [reflexivity|]. split; [intros ? []|]. split; [exact Hreq|]. discriminate. }
    run_generation. rewrite !heap_alloc_same. cbn [sessionOptions].
    destruct (startSession_rejects env (nextSession st)) as [r|].
    { intros Hrun. injection Hrun as <- <-. exists []. cbn [trace]. rewrite app_nil_r.
      split; [reflexivity|]. split; [intros ? []|]. split; [exact Hreq|]. discriminate. }
    run_generation.
    destruct (startTransaction_throws env (nextSession st)) as [r|].
    { intros Hrun. injection Hrun as <- <-. eexists [_]. cbn [trace].
      split; [reflexivity|]. split; [intros e [<-|[]]; reflexivity|].
      split; [exact Hreq|]. discriminate. }
    run_generation. intros Hrun. injection Hrun as <- <-. eexists [_; _]. cbn [trace heap].
    split; [rewrite <- app_assoc; reflexivity|].
    split; [intros e [<-|[<-|[]]]; reflexivity|].
    split; [exact Hreq|].
    intros ts Hts. injection Hts as <-. intros l [<-|[]].
    unfold heap_set_session. rewrite Nat.eqb_refl. discriminate.
  - intros Hrun.
    destruct (generate_each_inv env this _ _ _ _ _ Hrun) as (gen & Htr & Hev & _ & _ & _ & Hok).
    exists gen. repeat split; auto.
    intros ts Hts l Hl. destruct (Hok ts Hts) as (E & _ & _ & Hset). simpl in E. subst ts.
    apply Hset. exact Hl.
Qed.

(** X1: when generation returns, every instance of the list it returns holds
    a session, whatever the interceptor's list (repeated instances included):
    the calls [transaction.session!.commitTransaction()] and their siblings
    never meet a null session. *)
Theorem X1_generated_instances_hold_sessions env this st ts st1 :
  generateTransactions env this st = (Normal ts, st1) ->
  (forall t, In t ts -> exists s, session (heap st1 t) = Some s) /\
  (forall op, exists promises_, fst (map_calls op 0 ts st1) = Normal promises_).
Proof.
  intros Hrun.
  destruct (generateTransactions_inv env this st _ _ Hrun) as (gen & _ & _ & _ & Hset).
  specialize (Hset ts eq_refl).
  split.
  - intros t Ht. destruct (session (heap st1 t)) as [s|] eqn:E; [eauto|].
    exfalso. apply (Hset t Ht). exact E.
  - intros op. destruct (sessions_of_some (heap st1) ts Hset) as [ss Hss].
    rewrite (map_calls_run op ts ss 0 st1 Hss). eexists. reflexivity.
Qed.

Lemma X1_generated_instances_hold_sessions_witness :
  exists promises_,
    fst (map_calls Commit 0 [0; 0]
           (snd (generateTransactions Samples.store Samples.twice
                   (Samples.initial Samples.two_templates)))) = Normal promises_.
Proof.
  destruct (X1_generated_instances_hold_sessions Samples.store Samples.twice
              (Samples.initial Samples.two_templates) [0; 0]
              (snd (generateTransactions Samples.store Samples.twice
                      (Samples.initial Samples.two_templates))))
    as [_ H].
  - vm_compute. reflexivity.
  - apply (H Commit).
Defined.

(** X2: in normal mode an interceptor whose list is not empty opens, when
    generation returns, one session per entry of the list, in the order of the
    list: each with the options of its instance, its transaction started right
    after with the [defaultTransactionOptions] of these options, before the
    next session is opened; the list returned is the interceptor's list. *)
Theorem X2_sessions_are_opened_in_list_order env this st ts st1 :
  NODE_ENV env <> Some "test" ->
  transactionsToBeGeneratedInInterceptor this <> [] ->
  generateTransactions env this st = (Normal ts, st1) ->
  ts = transactionsToBeGeneratedInInterceptor this /\
  trace st1 = (trace st ++ opening_events (heap st) ts (nextSession st))%list /\
  opened (opening_events (heap st) ts (nextSession st)) = seq (nextSession st) (length ts) /\
  nextSession st1 = nextSession st + length ts.
Proof.
  intros Henv Hne. apply is_test_false in Henv.
  unfold generateTransactions. rewrite Henv.
  destruct (transactionsToBeGeneratedInInterceptor this) as [|t todo] eqn:E; [congruence|].
  cbn [length Nat.eqb]. intros Hrun.
  destruct (generate_each_inv env this _ _ _ _ _ Hrun) as (gen & Htr & _ & _ & _ & _ & Hok).
  destruct (Hok ts eq_refl) as (Hts & Hgen & Hns & _). simpl in Hts. subst ts gen.
  repeat split; auto. apply opened_opening_events.
Qed.

Lemma X2_sessions_are_opened_in_list_order_witness :
  trace (snd (generateTransactions Samples.store Samples.multi
                (Samples.initial Samples.two_templates)))
  = [EvStartSession 0 (Some TransactionsTemplate.defaultSessionOptions);
     EvStartTransaction 0 (defaultTransactionOptions TransactionsTemplate.defaultSessionOptions);
     EvStartSession 1 (Some TransactionsTemplate.readOnlySessionOptions);
     EvStartTransaction 1 (defaultTransactionOptions TransactionsTemplate.readOnlySessionOptions)].
Proof.
  destruct (X2_sessions_are_opened_in_list_order Samples.store Samples.multi
              (Samples.initial Samples.two_templates) [0; 1]
              (snd (generateTransactions Samples.store Samples.multi
                      (Samples.initial Samples.two_templates))))
    as (_ & Htr & _).
  - simpl. discriminate.
  - simpl. discriminate.
  - vm_compute. reflexivity.
  - rewrite Htr. vm_compute. reflexivity.
Defined.

(** X3: generation writes only the session slot of the instances of the
    interceptor's list: whether it returns or throws, every instance keeps its
    name and its options, and an instance that is not in the list is left as
    it is. *)
Theorem X3_generation_writes_session_slots_only env this st res st1 :
  transactionsToBeGeneratedInInterceptor this <> [] ->
  generateTransactions env this st = (res, st1) ->
  (forall l, name (heap st1 l) = name (heap st l) /\
             sessionOptions (heap st1 l) = sessionOptions (heap st l)) /\
  (forall l, ~ In l (transactionsToBeGeneratedInInterceptor this) -> heap st1 l = heap st l) /\
  nextLoc st1 = nextLoc st.
Proof.
  intros Hne. unfold generateTransactions.
  destruct (is_test env).
  { unfold ret. intros Hrun. injection Hrun as <- <-. auto. }
  destruct (transactionsToBeGeneratedInInterceptor this) as [|t todo] eqn:E; [congruence|].
  cbn [length Nat.eqb]. intros Hrun.
  destruct (generate_each_inv env this _ _ _ _ _ Hrun) as (gen & _ & _ & Hf & Hframe & _ & _).
  repeat split; try apply Hf; auto.
  clear - Hrun. revert Hrun. generalize (@nil loc) as acc. generalize (t :: todo) as l.
  intros l. revert st. induction l as [|x l IH]; intros st acc.
  - cbn [generate_each]. unfold ret. intros H. injection H as <- <-. reflexivity.
  - cbn [generate_each]. run_generation.
    destruct (databaseGlobalConnection this); [|intros H; injection H as <- <-; reflexivity].
    run_generation.
    destruct (startSession_rejects env (nextSession st));
      [intros H; injection H as <- <-; reflexivity|].
    run_generation.
    destruct (sessionOptions (heap st x)); [|intros H; injection H as <- <-; reflexivity].
    run_generation.
    destruct (startTransaction_throws env (nextSession st));
      [intros H; injection H as <- <-; reflexivity|].
    run_generation. intros H. apply IH in H. exact H.
Qed.

Lemma X3_generation_writes_session_slots_only_witness :
  name (heap (snd (generateTransactions MoreSamples.second_open_fails Samples.multi
                     (Samples.initial Samples.two_templates))) 1) = "analytics".
Proof.
  destruct (X3_generation_writes_session_slots_only MoreSamples.second_open_fails Samples.multi
              (Samples.initial Samples.two_templates)
              (fst (generateTransactions MoreSamples.second_open_fails Samples.multi
                      (Samples.initial Samples.two_templates)))
              (snd (generateTransactions MoreSamples.second_open_fails Samples.multi
                      (Samples.initial Samples.two_templates))))
    as (Hf & _ & _).
  - simpl. discriminate.
  - vm_compute. reflexivity.
  - destruct (Hf 1) as [Hn _]. rewrite Hn. reflexivity.
Defined.

(** ** Every request, whatever the data store does *)

Lemma logged_app a b : logged (a ++ b) = (logged a ++ logged b)%list.
Proof. apply flat_map_app. Qed.

Lemma logged_none l : (forall e, In e l -> is_log e = false) -> logged l = [].
Proof.
  induction l as [|x l IH]; intros H; [reflexivity|].
  cbn [logged flat_map]. fold (logged l).
  rewrite IH by (intros e He; apply H; right; exact He).
  specialize (H x (or_introl eq_refl)). destruct x; simpl in *; try discriminate; reflexivity.
Qed.

(** The events that follow the handler's invocation. *)
Ltac after_handler :=
  repeat match goal with
         | H : In _ (_ ++ _) |- _ => apply in_app_or in H; destruct H as [H|H]
         | H : In _ (_ :: _) |- _ => destruct H as [<-|H]
         | H : In _ [] |- _ => destruct H
         | H : In _ (fanout _ _) |- _ => shape
         | H : In _ (settle_events _ _ _) |- _ => shape
         end.

(** The trace of any request: the opening of sessions, the handler invoked
    on its view, then events that are neither openings, nor invocations, nor
    log entries. *)
Lemma serve_events env this next st :
  exists gen rest,
    trace (snd (serve env this next st))
    = (trace st ++ gen ++ EvHandle (fst (handler_view env this st)) :: rest)%list /\
    (forall e, In e gen -> is_open_event e = true) /\
    (forall e, In e rest ->
       is_handle e = false /\ is_log e = false /\ is_open_event e = false /\
       is_unhandled_rejection e = false) /\
    delivered rest
    = match next (fst (handler_view env this st)) (snd (handler_view env this st)) with
      | NextComplete v => [EvNext v; EvComplete]
      | Error e =>
          [EvError match fst (generateTransactions env this st) with
                   | Normal _ => match handleNestException env e with
                                 | Normal translated => translated
                                 | Throw x => x
                                 end
                   | Throw g => lock_error env g
                   end]
      end /\
    (forall g, fst (generateTransactions env this st) = Throw g ->
               forall e, In e rest -> is_notification e = true).
Proof.
  unfold handler_view.
  destruct (generateTransactions env this st) as [[ts|g] st1] eqn:Hgen.
  - destruct (generateTransactions_inv env this st _ _ Hgen) as (gen & Htr & Hev & _ & Hset).
    destruct (sessions_of_some (heap st1) ts (Hset ts eq_refl)) as [ss Hss].
    cbn [fst snd].
    destruct (next (attached ts) (heap st1)) as [v|e] eqn:Hnext.
    + rewrite (serve_success env this next st ts st1 ss v Hgen Hss Hnext).
      cbn [snd trace]. rewrite Htr, <- app_assoc.
      exists gen. eexists. split; [reflexivity|]. split; [exact Hev|].
      split; [|split; [|discriminate]].
      * intros e He. after_handler; repeat split; reflexivity.
      * unfold delivered. rewrite !filter_app.
        rewrite !(filter_none _ (fanout _ _)) by (intros; shape; reflexivity).
        rewrite !(filter_none _ (settle_events _ _ _)) by (intros; shape; reflexivity).
        reflexivity.
    + rewrite (serve_failure env this next st ts st1 ss e Hgen Hss Hnext).
      cbn [snd trace]. rewrite Htr, <- app_assoc.
      exists gen. eexists. split; [reflexivity|]. split; [exact Hev|].
      split; [|split; [|discriminate]].
      * intros x Hx. after_handler; repeat split; reflexivity.
      * unfold delivered. rewrite !filter_app.
        rewrite !(filter_none _ (fanout _ _)) by (intros; shape; reflexivity).
        rewrite !(filter_none _ (settle_events _ _ _)) by (intros; shape; reflexivity).
        reflexivity.
  - destruct (generateTransactions_inv env this st _ _ Hgen) as (gen & Htr & Hev & Hreq & _).
    rewrite (serve_degraded env this next st st1 g Hgen).
    cbn [fst snd add_trace trace]. rewrite Htr, <- app_assoc.
    exists gen. eexists. split; [reflexivity|]. split; [exact Hev|].
    destruct (next (req st1) (heap st1)) as [v|e].
    + split; [|split; [reflexivity|]].
      * intros x Hx. after_handler; repeat split; reflexivity.
      * intros ? _ x Hx. after_handler; reflexivity.
    + split; [|split; [reflexivity|]].
      * intros x Hx. after_handler; repeat split; reflexivity.
      * intros ? _ x Hx. after_handler; reflexivity.
Qed.

(** X4: no request ever writes to the log, whatever the interceptor, the
    handler and the data store do: a commit, an abort or an end-session that
    is rejected leaves no trace, and neither does a failure to open a session. *)
Theorem X4_nothing_is_ever_logged env this next st :
  logged (trace (snd (serve env this next st))) = logged (trace st).
Proof.
  destruct (serve_events env this next st) as (gen & rest & Htr & Hgen & Hrest & _).
  rewrite Htr, !logged_app.
  rewrite (logged_none gen).
  - cbn [logged flat_map app]. fold (logged rest).
    rewrite (logged_none rest); [apply app_nil_r|]. intros e He. apply Hrest, He.
  - intros e He. specialize (Hgen e He). destruct e; try discriminate; reflexivity.
Qed.

(** X5: every request invokes the handler exactly once, on every path:
    sessions opened, bypass mode, or generation failed. *)
Theorem X5_handler_is_invoked_once env this next st :
  exists new,
    trace (snd (serve env this next st)) = (trace st ++ new)%list /\
    filter is_handle new = [EvHandle (fst (handler_view env this st))].
Proof.
  destruct (serve_events env this next st) as (gen & rest & Htr & Hgen & Hrest & _).
  eexists. split; [exact Htr|].
  rewrite filter_app. cbn [filter is_handle].
  rewrite (filter_none _ gen), (filter_none _ rest); [reflexivity| |].
  - intros e He. apply Hrest, He.
  - intros e He. specialize (Hgen e He). destruct e; try discriminate; reflexivity.
Qed.

(** X6: a value the handler returns always reaches the caller, followed by
    completion and by nothing else, whatever the data store does: neither a
    failure to open the sessions nor a failing commit or end-session turns it
    into an error. *)
Theorem X6_returned_value_always_reaches_the_caller env this next st v :
  next (fst (handler_view env this st)) (snd (handler_view env this st)) = NextComplete v ->
  exists new,
    trace (snd (serve env this next st)) = (trace st ++ new)%list /\
    delivered new = [EvNext v; EvComplete].
Proof.
  intros Hnext.
  destruct (serve_events env this next st) as (gen & rest & Htr & Hgen & Hrest & Hdel & _).
  eexists. split; [exact Htr|].
  unfold delivered in *. rewrite filter_app. cbn [filter is_notification].
  rewrite (filter_none _ gen).
  - rewrite Hdel, Hnext. reflexivity.
  - intros e He. specialize (Hgen e He). destruct e; try discriminate; reflexivity.
Qed.

Lemma X6_returned_value_always_reaches_the_caller_witness :
  delivered (trace (snd (serve MoreSamples.second_open_fails Samples.multi Samples.succeeds
                           (Samples.initial Samples.two_templates))))
  = [EvNext (JString "created"); EvComplete].
Proof.
  destruct (X6_returned_value_always_reaches_the_caller MoreSamples.second_open_fails
              Samples.multi Samples.succeeds (Samples.initial Samples.two_templates)
              (JString "created"))
    as (new & Htr & Hdel).
  - reflexivity.
  - rewrite Htr. exact Hdel.
Defined.

(** X7: when generation throws [g], whatever [g] is (a missing connection, a
    session that cannot be opened, a transaction that cannot be started), a
    failing handler's own error is dropped: the caller receives the string
    "Failed To Acquire Mongoose lock " followed by [g.toString()], or the
    [TypeError] of that call when [g] is null or undefined. *)
Theorem X7_degraded_path_drops_the_handler_error env this next st g st1 e :
  generateTransactions env this st = (Throw g, st1) ->
  next (req st) (heap st1) = Error e ->
  exists new,
    trace (snd (serve env this next st)) = (trace st ++ new)%list /\
    delivered new = [EvError (lock_error env g)] /\
    (forall s, toString env g = Normal s ->
               lock_error env g = JString ("Failed To Acquire Mongoose lock " ++ s)) /\
    (g = JNull \/ g = JUndefined -> exists r, lock_error env g = r /\ instanceof r "TypeError" = true).
Proof.
  intros Hgen Hnext.
  destruct (serve_events env this next st) as (gen & rest & Htr & Hev & Hrest & Hdel & _).
  assert (Hreq : req st1 = req st).
  { pose proof (generateTransactions_req env this st) as H. rewrite Hgen in H. exact H. }
  unfold handler_view in *. rewrite Hgen in *. cbn [fst snd] in *.
  rewrite Hreq, Hnext in Hdel.
  eexists. split; [exact Htr|]. split.
  - unfold delivered in *. rewrite filter_app. cbn [filter is_notification].
    rewrite (filter_none _ gen); [exact Hdel|].
    intros x Hx. specialize (Hev x Hx). destruct x; try discriminate; reflexivity.
  - split.
    + intros s Hs. unfold lock_error. rewrite Hs. reflexivity.
    + intros [->| ->]; eexists; split; reflexivity.
Qed.

Lemma X7_degraded_path_drops_the_handler_error_witness :
  delivered (trace (snd (serve MoreSamples.second_open_fails Samples.multi Samples.fails
                           (Samples.initial Samples.two_templates))))
  = [EvError (JString "Failed To Acquire Mongoose lock MongoNetworkError: connection closed")].
Proof.
  destruct (X7_degraded_path_drops_the_handler_error MoreSamples.second_open_fails
              Samples.multi Samples.fails (Samples.initial Samples.two_templates)
              MoreSamples.network_error
              (snd (generateTransactions MoreSamples.second_open_fails Samples.multi
                      (Samples.initial Samples.two_templates)))
              Samples.mongoose_error)
    as (new & Htr & Hdel & _).
  - vm_compute. reflexivity.
  - reflexivity.
  - rewrite Htr. exact Hdel.
Defined.

(** X8: when generation throws, the request makes no commit, abort or
    end-session call at all: a session that was opened before the failure is
    neither aborted nor ended. *)
Theorem X8_failed_generation_ends_no_session env this next st g st1 :
  generateTransactions env this st = (Throw g, st1) ->
  exists new,
    trace (snd (serve env this next st)) = (trace st ++ new)%list /\
    (forall e, In e new -> is_any_call e = false /\ is_any_settle e = false) /\
    (forall op s, attempts op s new = 0).
Proof.
  intros Hgen.
  destruct (serve_events env this next st) as (gen & rest & Htr & Hev & _ & _ & Hnotif).
  rewrite Hgen in Hnotif. specialize (Hnotif g eq_refl).
  assert (Hnone : forall e, In e (gen ++ EvHandle (fst (handler_view env this st)) :: rest) ->
                            is_any_call e = false /\ is_any_settle e = false).
  { intros e He. apply in_app_or in He. destruct He as [He|[<-|He]].
    - specialize (Hev e He). destruct e; try discriminate; auto.
    - auto.
    - specialize (Hnotif e He). destruct e; try discriminate; auto. }
  eexists. split; [exact Htr|]. split; [exact Hnone|].
  intros op s. apply count_none. intros e He.
  destruct (Hnone e He) as [Hc _]. destruct e; try reflexivity. discriminate.
Qed.

Lemma X8_failed_generation_ends_no_session_witness :
  let tr := trace (snd (serve MoreSamples.no_transactions Samples.single Samples.succeeds
                          (Samples.initial Samples.two_templates))) in
  opened tr = [0] /\ attempts End_ 0 tr = 0 /\ attempts Abort 0 tr = 0.
Proof.
  destruct (X8_failed_generation_ends_no_session MoreSamples.no_transactions Samples.single
              Samples.succeeds (Samples.initial Samples.two_templates)
              MoreSamples.network_error
              (snd (generateTransactions MoreSamples.no_transactions Samples.single
                      (Samples.initial Samples.two_templates))))
    as (new & Htr & _ & Hzero).
  - vm_compute. reflexivity.
  - change (trace (Samples.initial Samples.two_templates) ++ new)%list with new in Htr.
    cbv zeta. rewrite Htr.
    split; [|split; apply Hzero].
    rewrite <- Htr. vm_compute. reflexivity.
Defined.

(** ** From the interceptor to the accessor *)

(** X9: an interceptor built by the constructor (empty list), in normal mode
    with a connection and a data store that accepts, opens exactly one
    session, with the default options, for a fresh instance named "default";
    no other instance is touched, and the accessor used without a name
    returns that session, and null for any other name. *)
Theorem X9_single_session_round_trip env this st c :
  NODE_ENV env <> Some "test" ->
  transactionsToBeGeneratedInInterceptor this = [] ->
  databaseGlobalConnection this = Some c ->
  startSession_rejects env (nextSession st) = None ->
  startTransaction_throws env (nextSession st) = None ->
  exists st1,
    generateTransactions env this st = (Normal [nextLoc st], st1) /\
    trace st1
    = (trace st ++
       [EvStartSession (nextSession st) (Some TransactionsTemplate.defaultSessionOptions);
        EvStartTransaction (nextSession st)
          (defaultTransactionOptions TransactionsTemplate.defaultSessionOptions)])%list /\
    heap st1 (nextLoc st)
    = {| sessionOptions := Some TransactionsTemplate.defaultSessionOptions;
         name := "default";
         session := Some (nextSession st) |} /\
    (forall l, l <> nextLoc st -> heap st1 l = heap st l) /\
    TransactionParam None (attached [nextLoc st]) (heap st1) = Normal (Some (nextSession st)) /\
    (forall d, d <> "default" ->
               TransactionParam (Some d) (attached [nextLoc st]) (heap st1) = Normal None).
Proof.
  intros Henv Hlist Hc Hopen Hstart. apply is_test_false in Henv.
  unfold generateTransactions. rewrite Henv, Hlist. cbn [length Nat.eqb].
  run_generation. rewrite Hc. run_generation. rewrite !heap_alloc_same. cbn [sessionOptions].
  rewrite Hopen. run_generation. rewrite Hstart. run_generation.
  eexists. split; [reflexivity|]. cbn [trace heap].
  assert (Hslot : heap_set_session
                    (heap_alloc (heap st) (nextLoc st)
                       {| sessionOptions := Some TransactionsTemplate.defaultSessionOptions;
                          name := "default"; session := None |})
                    (nextLoc st) (Some (nextSession st)) (nextLoc st)
                  = {| sessionOptions := Some TransactionsTemplate.defaultSessionOptions;
                       name := "default"; session := Some (nextSession st) |}).
  { unfold heap_set_session. rewrite Nat.eqb_refl, heap_alloc_same. reflexivity. }
  split; [rewrite <- app_assoc; reflexivity|].
  split; [exact Hslot|].
  split.
  { intros l Hl. unfold heap_set_session, heap_alloc.
    apply Nat.eqb_neq in Hl. rewrite Hl. reflexivity. }
  split.
  - unfold TransactionParam, attached. cbn [isUsingTransaction transactions find].
    rewrite Hslot. cbn [name session]. rewrite String.eqb_refl. rewrite ?Hslot. reflexivity.
  - intros d Hd. unfold TransactionParam, attached. cbn [isUsingTransaction transactions find].
    rewrite Hslot. cbn [name].
    destruct (String.eqb "default" d) eqn:E; [|reflexivity].
    apply String.eqb_eq in E. congruence.
Qed.

Lemma X9_single_session_round_trip_witness :
  TransactionParam None (attached [2])
    (heap (snd (generateTransactions Samples.store Samples.single
                  (Samples.initial Samples.two_templates))))
  = Normal (Some 0).
Proof.
  destruct (X9_single_session_round_trip Samples.store Samples.single
              (Samples.initial Samples.two_templates) Samples.connection)
    as (st1 & Hgen & _ & _ & _ & Hparam & _).
  - simpl. discriminate.
  - reflexivity.
  - reflexivity.
  - reflexivity.
  - reflexivity.
  - rewrite Hgen. exact Hparam.
Defined.

Lemma opening_events_nth h : forall ts s i t,
  nth_error ts i = Some t ->
  In (EvStartSession (s + i) (sessionOptions (h t))) (opening_events h ts s).
Proof.
  induction ts as [|x ts IH]; intros s i t H; destruct i as [|i]; simpl in H; try discriminate.
  - injection H as ->. rewrite Nat.add_0_r. left. reflexivity.
  - right. right. replace (s + S i) with (S s + i) by lia. apply IH. exact H.
Qed.

(** X10: in normal mode, when the names of the instances of the interceptor's
    list are pairwise distinct and generation returns, the accessor given the
    name of the [i]-th instance returns the [i]-th session opened: the one
    opened with that instance's options. *)
Theorem X10_named_sessions_round_trip env this st ts st1 i t :
  NODE_ENV env <> Some "test" ->
  NoDup (map (fun x => name (heap st x)) (transactionsToBeGeneratedInInterceptor this)) ->
  generateTransactions env this st = (Normal ts, st1) ->
  nth_error (transactionsToBeGeneratedInInterceptor this) i = Some t ->
  TransactionParam (Some (name (heap st t))) (attached ts) (heap st1)
  = Normal (Some (nextSession st + i)) /\
  exists gen,
    trace st1 = (trace st ++ gen)%list /\
    nth_error (opened gen) i = Some (nextSession st + i) /\
    In (EvStartSession (nextSession st + i) (sessionOptions (heap st t))) gen.
Proof.
  intros Henv Hnames Hrun Hnth. apply is_test_false in Henv.
  assert (Hnd : NoDup (transactionsToBeGeneratedInInterceptor this))
    by (eapply NoDup_map_inv; exact Hnames).
  revert Hrun. unfold generateTransactions. rewrite Henv.
  destruct (transactionsToBeGeneratedInInterceptor this) as [|t0 todo] eqn:E;
    [destruct i; discriminate|].
  cbn [length Nat.eqb]. intros Hrun.
  destruct (generate_each_inv env this _ _ _ _ _ Hrun) as (gen & Htr & _ & Hf & _ & _ & Hok).
  destruct (Hok ts eq_refl) as (Hts & Hgen & _ & _). simpl in Hts. subst ts.
  destruct (generate_each_success env this _ _ _ _ _ Hrun Hnd)
    as (gen' & _ & Htr' & _ & _ & _ & _ & Hss & _).
  assert (gen' = gen) by (rewrite Htr in Htr'; apply app_inv_head in Htr'; congruence).
  subst gen'. rewrite Hgen, opened_opening_events in Hss.
  assert (Hi : i < length (t0 :: todo)) by (apply nth_error_Some; congruence).
  assert (Hsession : session (heap st1 t) = Some (nextSession st + i)).
  { assert (H1 : nth_error (sessions_of (heap st1) (t0 :: todo)) i
                 = Some (session (heap st1 t)))
      by (unfold sessions_of;
          apply (map_nth_error (fun x => session (heap st1 x))); exact Hnth).
    assert (H2 : nth_error (map Some (seq (nextSession st) (length (t0 :: todo)))) i
                 = Some (Some (nextSession st + i))).
    { apply (map_nth_error (@Some nat)).
      rewrite (nth_error_nth' _ 0) by (rewrite length_seq; exact Hi).
      rewrite seq_nth by exact Hi. reflexivity. }
    unfold ClientSession in *. rewrite <- Hss in H2. congruence. }
  split.
  - destruct (nth_error_split _ _ Hnth) as (l1 & l2 & Hsplit & Hlen).
    rewrite Hsplit in Hnames. rewrite map_app in Hnames. cbn [map] in Hnames.
    apply NoDup_remove_2 in Hnames.
    unfold TransactionParam, attached. cbn [isUsingTransaction transactions].
    rewrite Hsplit, (find_first _ l1 t l2).
    + rewrite Hsession. reflexivity.
    + intros t' Ht'. apply String.eqb_neq. destruct (Hf t') as [-> _]. intros Heq.
      apply Hnames. apply in_or_app. left. rewrite <- Heq.
      apply (in_map (fun x => name (heap st x))). exact Ht'.
    + apply String.eqb_eq. apply Hf.
  - exists gen. split; [exact Htr|]. rewrite Hgen. split.
    + rewrite opened_opening_events.
      rewrite (nth_error_nth' _ 0) by (rewrite length_seq; exact Hi).
      rewrite seq_nth by exact Hi. reflexivity.
    + apply opening_events_nth. exact Hnth.
Qed.

Lemma X10_named_sessions_round_trip_witness :
  TransactionParam (Some "analytics") (attached [0; 1])
    (heap (snd (generateTransactions Samples.store Samples.multi
                  (Samples.initial Samples.two_templates))))
  = Normal (Some 1).
Proof.
  destruct (X10_named_sessions_round_trip Samples.store Samples.multi
              (Samples.initial Samples.two_templates) [0; 1]
              (snd (generateTransactions Samples.store Samples.multi
                      (Samples.initial Samples.two_templates)))
              1 1)
    as (Hparam & _).
  - simpl. discriminate.
  - vm_compute. repeat constructor; simpl; intuition discriminate.
  - vm_compute. reflexivity.
  - reflexivity.
  - exact Hparam.
Defined.

(** ** Failures of generation *)

Lemma generate_each_provenance env this c :
  databaseGlobalConnection this = Some c ->
  forall todo acc st g st1,
    (forall l, In l todo -> sessionOptions (heap st l) <> None) ->
    generate_each env this todo acc st = (Throw g, st1) ->
    exists s, nextSession st <= s /\
              (startSession_rejects env s = Some g \/ startTransaction_throws env s = Some g).
Proof.
  intros Hc. induction todo as [|t todo IH]; intros acc st g st1 Hopts.
  - cbn [generate_each]. unfold ret. discriminate.
  - cbn [generate_each]. run_generation. rewrite Hc. run_generation.
    destruct (startSession_rejects env (nextSession st)) as [r|] eqn:Hr.
    { intros H. injection H as <- <-. exists (nextSession st). auto. }
    run_generation.
    destruct (sessionOptions (heap st t)) as [o|] eqn:Ho;
      [|exfalso; apply (Hopts t); [left; reflexivity | exact Ho]].
    run_generation.
    destruct (startTransaction_throws env (nextSession st)) as [r|] eqn:Hs.
    { intros H. injection H as <- <-. exists (nextSession st). auto. }
    run_generation. intros H. apply IH in H.
    + destruct H as (s & Hle & Hs'). cbn [nextSession] in Hle. exists s. split; [lia | exact Hs'].
    + intros l Hl. cbn [heap].
      destruct (heap_set_session_fields (heap st) t (Some (nextSession st)) l) as [_ ->].
      apply Hopts. right. exact Hl.
Qed.

(** X11: with a connection, and instances that have their options (as all
    built by the constructor of [TransactionsTemplate] do), generation throws
    only what the data store throws: the rejection of a [startSession] or the
    exception of a [startTransaction]. *)
Theorem X11_generation_fails_only_as_the_store_does env this st c g st1 :
  databaseGlobalConnection this = Some c ->
  (forall l, In l (transactionsToBeGeneratedInInterceptor this) ->
             sessionOptions (heap st l) <> None) ->
  generateTransactions env this st = (Throw g, st1) ->
  exists s, nextSession st <= s /\
            (startSession_rejects env s = Some g \/ startTransaction_throws env s = Some g).
Proof.
  intros Hc Hopts. unfold generateTransactions.
  destruct (is_test env); [unfold ret; discriminate|].
  destruct (Nat.eqb (length (transactionsToBeGeneratedInInterceptor this)) 0).
  - run_generation. rewrite Hc. run_generation. rewrite !heap_alloc_same. cbn [sessionOptions].
    destruct (startSession_rejects env (nextSession st)) as [r|] eqn:Hr.
    { intros H. injection H as <- <-. exists (nextSession st). auto. }
    run_generation.
    destruct (startTransaction_throws env (nextSession st)) as [r|] eqn:Hs.
    { intros H. injection H as <- <-. exists (nextSession st). auto. }
    run_generation. discriminate.
  - apply (generate_each_provenance env this c Hc). exact Hopts.
Qed.

Lemma X11_generation_fails_only_as_the_store_does_witness :
  exists s,
    startSession_rejects MoreSamples.second_open_fails s = Some MoreSamples.network_error \/
    startTransaction_throws MoreSamples.second_open_fails s = Some MoreSamples.network_error.
Proof.
  destruct (X11_generation_fails_only_as_the_store_does MoreSamples.second_open_fails
              Samples.multi (Samples.initial Samples.two_templates) Samples.connection
              MoreSamples.network_error
              (snd (generateTransactions MoreSamples.second_open_fails Samples.multi
                      (Samples.initial Samples.two_templates))))
    as (s & _ & Hs).
  - reflexivity.
  - intros l _. simpl. destruct l; discriminate.
  - vm_compute. reflexivity.
  - exists s. exact Hs.
Defined.

(** ** The order of the answer and of the cleanup *)

(** X12: when the handler returns, its value and the completion are delivered
    to the caller before any commit or end-session has settled: the callback
    given to [tap] is not awaited, so the outcome of a commit cannot reach the
    response. *)
Theorem X12_response_precedes_every_settlement env this next st ts st1 v :
  generateTransactions env this st = (Normal ts, st1) ->
  next (attached ts) (heap st1) = NextComplete v ->
  exists new,
    trace (snd (serve env this next st)) = (trace st ++ new)%list /\
    precedes is_notification is_any_settle new /\
    precedes (is_op_call Commit) is_notification new /\
    count is_any_settle new = 2 * length ts.
Proof.
  intros Hgen Hnext.
  destruct (generateTransactions_inv env this st _ _ Hgen) as (gen & Htr & Hev & _ & Hset).
  destruct (sessions_of_some (heap st1) ts (Hset ts eq_refl)) as [ss Hss].
  rewrite (serve_success env this next st ts st1 ss v Hgen Hss Hnext).
  cbn [snd trace]. rewrite Htr, <- app_assoc.
  exists (gen ++ EvHandle (attached ts) :: fanout Commit ss ++ [EvNext v; EvComplete]
              ++ settle_events env Commit ss ++ fanout End_ ss ++ settle_events env End_ ss)%list.
  split; [reflexivity|].
  assert (Hgen_shape : forall e, In e gen ->
            is_any_settle e = false /\ is_notification e = false /\ is_op_call Commit e = false).
  { intros e He. specialize (Hev e He). destruct e; try discriminate; auto. }
  split; [|split].
  - replace (gen ++ EvHandle (attached ts) :: fanout Commit ss ++ [EvNext v; EvComplete]
                 ++ settle_events env Commit ss ++ fanout End_ ss
                 ++ settle_events env End_ ss)%list
      with ((gen ++ EvHandle (attached ts) :: fanout Commit ss ++ [EvNext v; EvComplete])
              ++ (settle_events env Commit ss ++ fanout End_ ss
                    ++ settle_events env End_ ss))%list
      by (rewrite <- !app_assoc; simpl; rewrite <- !app_assoc; reflexivity).
    apply precedes_split.
    + intros e He. apply in_app_or in He. destruct He as [He|He]; [apply Hgen_shape, He|].
      after_handler; reflexivity.
    + intros e He. after_handler; reflexivity.
  - replace (gen ++ EvHandle (attached ts) :: fanout Commit ss ++ [EvNext v; EvComplete]
                 ++ settle_events env Commit ss ++ fanout End_ ss
                 ++ settle_events env End_ ss)%list
      with ((gen ++ EvHandle (attached ts) :: fanout Commit ss)
              ++ ([EvNext v; EvComplete] ++ settle_events env Commit ss ++ fanout End_ ss
                    ++ settle_events env End_ ss))%list
      by (rewrite <- !app_assoc; simpl; reflexivity).
    apply precedes_split.
    + intros e He. apply in_app_or in He. destruct He as [He|He]; [apply Hgen_shape, He|].
      after_handler; reflexivity.
    + intros e He. after_handler; simpl; try reflexivity. rewrite Hp. reflexivity.
  - rewrite count_app, count_cons, !count_app. cbn [is_any_settle].
    rewrite (count_none _ gen) by (intros e He; apply Hgen_shape, He).
    rewrite !(count_none _ (fanout _ _)) by (intros; shape; reflexivity).
    rewrite (count_none _ [EvNext v; EvComplete]) by (intros e [<-|[<-|[]]]; reflexivity).
    unfold settle_events, count.
    rewrite !(filter_all is_any_settle)
      by (intros e He; apply in_map_iff in He; destruct He as [p [<- _]]; reflexivity).
    rewrite !length_map.
    rewrite !(Permutation_length (schedule_perm _ _ _ eq_refl)), !promises_length.
    rewrite (sessions_length _ _ _ Hss). lia.
Qed.

Lemma X12_response_precedes_every_settlement_witness :
  exists new,
    trace (snd (serve Samples.store Samples.single Samples.succeeds
                  (Samples.initial Samples.two_templates))) = new /\
    precedes is_notification is_any_settle new /\
    rejections Commit new = [0].
Proof.
  destruct (X12_response_precedes_every_settlement Samples.store Samples.single
              Samples.succeeds (Samples.initial Samples.two_templates) [2]
              (snd (generateTransactions Samples.store Samples.single
                      (Samples.initial Samples.two_templates)))
              (JString "created"))
    as (new & Htr & Hord & _).
  - vm_compute. reflexivity.
  - reflexivity.
  - exists new.
    change (trace (Samples.initial Samples.two_templates) ++ new)%list with new in Htr.
    split; [exact Htr|]. split; [exact Hord|].
    rewrite <- Htr. vm_compute. reflexivity.
Defined.

(** ** The translator and the caller *)

(** X13: translating twice is translating once, as long as Nest's exceptions
    are not flagged as axios errors: an error that went through the translator
    (of an inner interceptor, say) goes through it again unchanged. *)
Theorem X13_translation_is_idempotent env e r :
  (forall c a o, isAxiosError env (JHttpException c a o) = false) ->
  handleNestException env e = Normal r ->
  handleNestException env r = Normal r.
Proof.
  intros Hnest. unfold handleNestException at 1.
  assert (Hexc : forall c a o, handleNestException env (JHttpException c a o)
                               = Normal (JHttpException c a o)).
  { intros c a o. unfold handleNestException. cbn [instanceof]. rewrite Hnest. reflexivity. }
  destruct (instanceof e "MongooseError") eqn:E1.
  { destruct (instanceof_object _ _ E1) as (cl & p & ->). cbn [get_prop].
    intros H. injection H as <-. apply Hexc. }
  destruct (isAxiosError env e) eqn:E2.
  { destruct e; simpl in E2; try discriminate; cbn [get_prop];
      intros H; injection H as <-; apply Hexc. }
  destruct (instanceof e "TypeGuardError") eqn:E3.
  { destruct (instanceof_object _ _ E3) as (cl & p & ->). cbn [get_prop].
    intros H. injection H as <-. apply Hexc. }
  intros H. injection H as <-.
  unfold handleNestException. rewrite E1, E2, E3. reflexivity.
Qed.

Lemma X13_translation_is_idempotent_witness :
  exists r,
    handleNestException Samples.store Samples.mongoose_error = Normal r /\
    handleNestException Samples.store r = Normal r.
Proof.
  eexists. split; [vm_compute; reflexivity|].
  apply (X13_translation_is_idempotent Samples.store Samples.mongoose_error).
  - intros c a o. reflexivity.
  - vm_compute. reflexivity.
Defined.

(** X14: when the sessions were opened and the handler throws an error that
    is neither a Mongoose error, nor an axios error, nor a type-guard error
    (a Nest exception of the handler's own, a string, null), the caller
    receives that very error. *)
Theorem X14_unclassified_errors_reach_the_caller_unchanged env this next st ts st1 e :
  generateTransactions env this st = (Normal ts, st1) ->
  next (attached ts) (heap st1) = Error e ->
  instanceof e "MongooseError" = false ->
  isAxiosError env e = false ->
  instanceof e "TypeGuardError" = false ->
  exists new,
    trace (snd (serve env this next st)) = (trace st ++ new)%list /\
    delivered new = [EvError e].
Proof.
  intros Hgen Hnext E1 E2 E3.
  destruct (serve_events env this next st) as (gen & rest & Htr & Hev & _ & Hdel & _).
  unfold handler_view in *. rewrite Hgen in *. cbn [fst snd] in *. rewrite Hnext in Hdel.
  unfold handleNestException in Hdel. rewrite E1, E2, E3 in Hdel.
  eexists. split; [exact Htr|].
  unfold delivered in *. rewrite filter_app. cbn [filter is_notification].
  rewrite (filter_none _ gen); [exact Hdel|].
  intros x Hx. specialize (Hev x Hx). destruct x; try discriminate; reflexivity.
Qed.

Lemma X14_unclassified_errors_reach_the_caller_unchanged_witness :
  delivered (trace (snd (serve Samples.store Samples.multi MoreSamples.rejects_request
                           (Samples.initial Samples.two_templates))))
  = [EvError MoreSamples.not_found].
Proof.
  destruct (X14_unclassified_errors_reach_the_caller_unchanged Samples.store Samples.multi
              MoreSamples.rejects_request (Samples.initial Samples.two_templates) [0; 1]
              (snd (generateTransactions Samples.store Samples.multi
                      (Samples.initial Samples.two_templates)))
              MoreSamples.not_found)
    as (new & Htr & Hdel).
  - vm_compute. reflexivity.
  - reflexivity.
  - reflexivity.
  - reflexivity.
  - reflexivity.
  - rewrite Htr. exact Hdel.
Defined.

(** ** After the request *)

(** X15: no request ends with a rejection nobody handles, and [serve] itself
    never throws: the promise of the callback given to [tap], which nobody
    awaits, is never rejected. *)
Theorem X15_no_unhandled_rejection env this next st :
  fst (serve env this next st) = Normal tt /\
  exists new,
    trace (snd (serve env this next st)) = (trace st ++ new)%list /\
    forall e, In e new -> is_unhandled_rejection e = false.
Proof.
  split.
  - destruct (generateTransactions env this st) as [[ts|g] st1] eqn:Hgen.
    + destruct (generateTransactions_inv env this st _ _ Hgen) as (gen & _ & _ & _ & Hset).
      destruct (sessions_of_some (heap st1) ts (Hset ts eq_refl)) as [ss Hss].
      destruct (next (attached ts) (heap st1)) as [v|e] eqn:Hnext.
      * rewrite (serve_success env this next st ts st1 ss v Hgen Hss Hnext). reflexivity.
      * rewrite (serve_failure env this next st ts st1 ss e Hgen Hss Hnext). reflexivity.
    + rewrite (serve_degraded env this next st st1 g Hgen). reflexivity.
  - destruct (serve_events env this next st) as (gen & rest & Htr & Hev & Hrest & _).
    eexists. split; [exact Htr|].
    intros e He. apply in_app_or in He. destruct He as [He|[<-|He]].
    + specialize (Hev e He). destruct e; try discriminate; reflexivity.
    + reflexivity.
    + apply Hrest, He.
Qed.

(** X16: the interceptor never clears what it attached: after the request,
    whatever its outcome, the accessor returns on the request what it
    returned to the handler; the sessions it hands out are by then ended. *)
Theorem X16_nothing_is_cleared_after_the_request env this next st data :
  TransactionParam data (req (snd (serve env this next st))) (heap (snd (serve env this next st)))
  = TransactionParam data (fst (handler_view env this st)) (snd (handler_view env this st)).
Proof.
  unfold handler_view.
  destruct (generateTransactions env this st) as [[ts|g] st1] eqn:Hgen.
  - destruct (generateTransactions_inv env this st _ _ Hgen) as (gen & _ & _ & _ & Hset).
    destruct (sessions_of_some (heap st1) ts (Hset ts eq_refl)) as [ss Hss].
    destruct (next (attached ts) (heap st1)) as [v|e] eqn:Hnext.
    + rewrite (serve_success env this next st ts st1 ss v Hgen Hss Hnext). reflexivity.
    + rewrite (serve_failure env this next st ts st1 ss e Hgen Hss Hnext). reflexivity.
  - rewrite (serve_degraded env this next st st1 g Hgen). reflexivity.
Qed.

(** ** Templates built by the constructor *)

Lemma opening_events_nth_transaction h : forall ts s i t,
  nth_error ts i = Some t ->
  In (EvStartTransaction (s + i) (transaction_options (sessionOptions (h t))))
     (opening_events h ts s).
Proof.
  induction ts as [|x ts IH]; intros s i t H; destruct i as [|i]; simpl in H; try discriminate.
  - injection H as ->. rewrite Nat.add_0_r. right. left. reflexivity.
  - right. right. replace (s + S i) with (S s + i) by lia. apply IH. exact H.
Qed.

(** X17: an instance built by the constructor of [TransactionsTemplate]
    always has options, the default preset when none was given; when it is
    the [i]-th of the interceptor's list and generation returns in normal
    mode, its session is opened with these options and its transaction is
    started with their [defaultTransactionOptions]. *)
Theorem X17_constructed_template_is_opened_with_its_options env this st ts st1 i t n o :
  NODE_ENV env <> Some "test" ->
  nth_error (transactionsToBeGeneratedInInterceptor this) i = Some t ->
  heap st t = new_TransactionsTemplate n o ->
  generateTransactions env this st = (Normal ts, st1) ->
  let used := match o with
              | Some given => given
              | None => TransactionsTemplate.defaultSessionOptions
              end in
  exists gen,
    trace st1 = (trace st ++ gen)%list /\
    In (EvStartSession (nextSession st + i) (Some used)) gen /\
    In (EvStartTransaction (nextSession st + i) (defaultTransactionOptions used)) gen.
Proof.
  intros Henv Hnth Hbuilt Hrun used. apply is_test_false in Henv.
  revert Hrun. unfold generateTransactions. rewrite Henv.
  destruct (transactionsToBeGeneratedInInterceptor this) as [|t0 todo] eqn:E;
    [destruct i; discriminate|].
  cbn [length Nat.eqb]. intros Hrun.
  destruct (generate_each_inv env this _ _ _ _ _ Hrun) as (gen & Htr & _ & _ & _ & _ & Hok).
  destruct (Hok ts eq_refl) as (_ & Hgen & _ & _).
  exists gen. split; [exact Htr|]. rewrite Hgen.
  assert (Hopts : sessionOptions (heap st t) = Some used)
    by (rewrite Hbuilt; reflexivity).
  split.
  - rewrite <- Hopts. apply opening_events_nth. exact Hnth.
  - replace (defaultTransactionOptions used)
      with (transaction_options (sessionOptions (heap st t)))
      by (rewrite Hopts; reflexivity).
    apply opening_events_nth_transaction. exact Hnth.
Qed.

Lemma X17_constructed_template_is_opened_with_its_options_witness :
  In (EvStartSession 0 (Some TransactionsTemplate.defaultSessionOptions))
     (trace (snd (generateTransactions Samples.store Samples.multi
                    (Samples.initial Samples.two_templates)))).
Proof.
  destruct (X17_constructed_template_is_opened_with_its_options Samples.store Samples.multi
              (Samples.initial Samples.two_templates) [0; 1]
              (snd (generateTransactions Samples.store Samples.multi
                      (Samples.initial Samples.two_templates)))
              0 0 "default" None)
    as (gen & Htr & Hin & _).
  - simpl. discriminate.
  - reflexivity.
  - reflexivity.
  - vm_compute. reflexivity.
  - rewrite Htr. apply in_or_app. right. exact Hin.
Defined.

(** * Handlers whose observable delivers any number of values *)

(** ** Running [Stream.serve] *)

Section StreamRuns.

Variable env : World.

Ltac stream_step :=
  cbv beta iota delta [Stream.serve Stream.intercept Stream.catchError Stream.tap
    Stream.tapped Stream.caught
    Stream.handle Stream.innerFrom Stream.throwError Stream.subscriber Stream.of_answer
    try_catch bind ret get set_req_transactions set_req_isUsingTransaction set_req emit
    async await floating lift throw];
  cbn [heap nextLoc nextSession req trace transactions isUsingTransaction
       Stream.deliver Stream.signals map app fst snd].

(** One value, then completion: the run of [serve_success]. *)
Lemma stream_serve_one_value this next st ts st1 ss v :
  generateTransactions env this st = (Normal ts, st1) ->
  sessions_of (heap st1) ts = map Some ss ->
  next (attached ts) (heap st1) = ([v], Stream.Completes) ->
  Stream.serve env this next st
  = (Normal tt,
     {| heap := heap st1; nextLoc := nextLoc st1; nextSession := nextSession st1;
        req := attached ts;
        trace := trace st1 ++
                 EvHandle (attached ts) :: fanout Commit ss ++ [EvNext v; EvComplete]
                 ++ settle_events env Commit ss ++ fanout End_ ss
                 ++ settle_events env End_ ss |}).
Proof.
  intros Hgen Hss Hnext.
  stream_step. rewrite Hgen. stream_step.
  change {| transactions := Some ts; isUsingTransaction := Some true |} with (attached ts).
  rewrite Hnext. do 2 stream_step.
  match goal with |- context [commitAllTransactions env ts ?s] =>
    destruct (commitAllTransactions_run env ts ss s Hss) as [rest [Hrun Hrest]];
      rewrite Hrun
  end.
  do 2 stream_step. rewrite Hrest. do 2 stream_step.
  match goal with |- context [endAllSessions env ts ?s] =>
    destruct (endAllSessions_run env ts ss s Hss) as [rest2 [Hrun2 Hrest2]];
      rewrite Hrun2
  end.
  rewrite Hrest2. unfold add_trace. do 2 stream_step.
  repeat rewrite <- app_assoc. reflexivity.
Qed.

(** An error and no value: the run of [serve_failure]. *)
Lemma stream_serve_error_only this next st ts st1 ss e :
  generateTransactions env this st = (Normal ts, st1) ->
  sessions_of (heap st1) ts = map Some ss ->
  next (attached ts) (heap st1) = ([], Stream.Errors e) ->
  Stream.serve env this next st
  = (Normal tt,
     {| heap := heap st1; nextLoc := nextLoc st1; nextSession := nextSession st1;
        req := attached ts;
        trace := trace st1 ++
                 EvHandle (attached ts) :: fanout Abort ss ++ settle_events env Abort ss
                 ++ fanout End_ ss ++ settle_events env End_ ss
                 ++ [EvError (match handleNestException env e with
                              | Normal translated => translated
                              | Throw x => x
                              end)] |}).
Proof.
  intros Hgen Hss Hnext.
  stream_step. rewrite Hgen. stream_step.
  change {| transactions := Some ts; isUsingTransaction := Some true |} with (attached ts).
  rewrite Hnext. do 2 stream_step.
  match goal with |- context [handleTransactionExceptions env ts e ?s] =>
    destruct (handleTransactionExceptions_run env ts ss e s Hss) as [rest [Hrun Hrest]];
      rewrite Hrun
  end.
  rewrite Hrest by reflexivity.
  unfold add_trace. do 2 stream_step.
  destruct (handleNestException env e); do 2 stream_step;
    repeat rewrite <- app_assoc; reflexivity.
Qed.

(** Generation threw, and the handler answers once: the run of
    [serve_degraded]. *)
Lemma stream_serve_degraded this next st st1 g :
  generateTransactions env this st = (Throw g, st1) ->
  Stream.serve env this (Stream.of_answer next) st = serve env this next st.
Proof.
  intros Hgen. rewrite (serve_degraded env this next st st1 g Hgen).
  stream_step. rewrite Hgen. do 2 stream_step.
  destruct (next (req st1) (heap st1)); do 2 stream_step.
  - unfold add_trace. repeat rewrite <- app_assoc. reflexivity.
  - destruct (toString env g); do 2 stream_step; unfold add_trace;
      repeat rewrite <- app_assoc; reflexivity.
Qed.

(** On handlers that answer once, with one value or with an error, the two
    embeddings of [intercept] run alike: what is proved of [serve] holds of
    [Stream.serve] on these handlers. *)
Lemma stream_serve_agrees this next st :
  Stream.serve env this (Stream.of_answer next) st = serve env this next st.
Proof.
  destruct (generateTransactions env this st) as [[ts|g] st1] eqn:Hgen.
  - destruct (generateTransactions_inv env this st _ _ Hgen) as (gen & _ & _ & _ & Hset).
    destruct (sessions_of_some (heap st1) ts (Hset ts eq_refl)) as [ss Hss].
    destruct (next (attached ts) (heap st1)) as [v|e] eqn:Hnext.
    + rewrite (serve_success env this next st ts st1 ss v Hgen Hss Hnext).
      apply stream_serve_one_value; auto. unfold Stream.of_answer. rewrite Hnext. reflexivity.
    + rewrite (serve_failure env this next st ts st1 ss e Hgen Hss Hnext).
      apply stream_serve_error_only; auto. unfold Stream.of_answer. rewrite Hnext. reflexivity.
  - eapply stream_serve_degraded. exact Hgen.
Qed.

End StreamRuns.

(** ** One value, or an error and no value *)









(** ** The interceptor the constructor builds *)




(** ** Any number of values *)

Section StreamValues.

Variable env : World.
Variables (ts : list loc) (ss : list ClientSession).

(** What the callback of [tap] does for one value: the commits are called at
    once; their settling and the end-sessions are left behind. *)
Lemma tap_callback_run st :
  sessions_of (heap st) ts = map Some ss ->
  exists rest,
    async (committing <- commitAllTransactions env ts;;
           ret (await committing;;;
                ending <- endAllSessions env ts;;
                await ending)) st
    = (Normal rest, add_trace st (fanout Commit ss)) /\
    forall st', heap st' = heap st ->
      rest st' = (Normal tt,
                  add_trace st' (settle_events env Commit ss ++ fanout End_ ss
                                 ++ settle_events env End_ ss)).
Proof.
  intros Hss.
  destruct (commitAllTransactions_run env ts ss st Hss) as [rest1 [Hrun1 Hrest1]].
  eexists. split.
  - unfold async at 1. unfold bind at 1. rewrite Hrun1. reflexivity.
  - intros st' Hh. unfold await, bind. rewrite Hrest1.
    destruct (endAllSessions_run env ts ss (add_trace st' (settle_events env Commit ss)))
      as [rest2 [Hrun2 Hrest2]]; [simpl; rewrite Hh; exact Hss|].
    rewrite Hrun2, Hrest2, !add_trace_app. reflexivity.
Qed.

(** The values of the handler, one after the other, then completion. *)
Lemma stream_deliver_values callback selector :
  (forall v st, sessions_of (heap st) ts = map Some ss ->
     exists rest,
       callback v st = (Normal rest, add_trace st (fanout Commit ss)) /\
       forall st', heap st' = heap st ->
         rest st' = (Normal tt,
                     add_trace st' (settle_events env Commit ss ++ fanout End_ ss
                                    ++ settle_events env End_ ss))) ->
  forall vs st,
    sessions_of (heap st) ts = map Some ss ->
    exists later,
      Stream.deliver (Stream.tapped callback (Stream.caught selector Stream.subscriber))
        (map Stream.Next vs ++ [Stream.Complete]) st
      = (Normal later,
         add_trace st (flat_map (fun v => (fanout Commit ss ++ [EvNext v])%list) vs ++ [EvComplete]))
      /\
      forall st', heap st' = heap st ->
        later st'
        = (Normal tt,
           add_trace st'
             (concat (repeat (settle_events env Commit ss ++ fanout End_ ss
                              ++ settle_events env End_ ss)%list (length vs)))).
Proof.
  intros Hcb. induction vs as [|v vs IH]; intros st Hss.
  - eexists. split.
    + cbn [map app Stream.deliver Stream.tapped Stream.caught Stream.subscriber flat_map].
      unfold bind, emit, ret. cbn [fst snd]. reflexivity.
    + intros st' _. cbn [length repeat concat]. rewrite add_trace_nil. reflexivity.
  - destruct (Hcb v st Hss) as [rest [Hrun Hrest]].
    destruct (IH (add_trace (add_trace st (fanout Commit ss)) [EvNext v]))
      as [later [Hdeliver Hlater]]; [exact Hss|].
    eexists. split.
    + cbn [map app Stream.deliver]. unfold bind at 1.
      cbn [Stream.tapped]. rewrite Hrun.
      cbn [Stream.caught Stream.subscriber].
      cbv beta iota delta [bind emit ret]. cbn [fst snd heap nextLoc nextSession req trace].
      fold (add_trace (add_trace st (fanout Commit ss)) [EvNext v]).
      rewrite Hdeliver. rewrite !add_trace_app.
      cbn [flat_map]. rewrite <- !app_assoc. reflexivity.
    + intros st' Hh. cbv beta iota delta [bind floating try_catch ret].
      rewrite (Hrest st' Hh). rewrite Hlater by (simpl; exact Hh).
      rewrite add_trace_app. cbn [length repeat concat]. rewrite <- !app_assoc. reflexivity.
Qed.

End StreamValues.

Section StreamServe.

Variable env : World.

Ltac stream_unfold :=
  cbv beta iota delta [Stream.serve Stream.intercept Stream.catchError Stream.tap
    Stream.handle try_catch bind ret get set_req_transactions set_req_isUsingTransaction
    set_req emit];
  cbn [heap nextLoc nextSession req trace transactions isUsingTransaction fst snd].

(** The whole run of a request whose sessions were opened and whose handler
    delivers the values [vs] and completes. *)
Lemma stream_serve_values this next st ts st1 ss vs :
  generateTransactions env this st = (Normal ts, st1) ->
  sessions_of (heap st1) ts = map Some ss ->
  next (attached ts) (heap st1) = (vs, Stream.Completes) ->
  trace (snd (Stream.serve env this next st))
  = (trace st1 ++
     EvHandle (attached ts) ::
     flat_map (fun v => (fanout Commit ss ++ [EvNext v])%list) vs ++ [EvComplete]
     ++ concat (repeat (settle_events env Commit ss ++ fanout End_ ss
                        ++ settle_events env End_ ss)%list (length vs)))%list.
Proof.
  intros Hgen Hss Hnext.
  stream_unfold. rewrite Hgen. stream_unfold.
  change {| transactions := Some ts; isUsingTransaction := Some true |} with (attached ts).
  rewrite Hnext. unfold Stream.signals. cbn [fst snd].
  match goal with |- context [Stream.deliver (Stream.tapped ?cb (Stream.caught ?sel _)) _ ?s] =>
    destruct (stream_deliver_values env ts ss cb sel
                (fun _ st0 H => tap_callback_run env ts ss st0 H) vs s Hss)
      as [later [Hdeliver Hlater]]
  end.
  rewrite Hdeliver. rewrite Hlater by reflexivity.
  cbn [snd add_trace trace]. rewrite <- !app_assoc. reflexivity.
Qed.

End StreamServe.

Lemma attempts_app op s (a b : list Event) :
  attempts op s (a ++ b) = attempts op s a + attempts op s b.
Proof. apply count_app. Qed.

Lemma attempts_cons op s e (l : list Event) :
  attempts op s (e :: l) = (if is_call op s e then 1 else 0) + attempts op s l.
Proof. apply count_cons. Qed.

Lemma attempts_values op s ss (vs : list JsValue) :
  attempts op s (flat_map (fun v => (fanout Commit ss ++ [EvNext v])%list) vs)
  = length vs * attempts op s (fanout Commit ss).
Proof.
  unfold attempts. induction vs as [|v vs IH]; [reflexivity|].
  cbn [flat_map length]. rewrite !count_app, IH.
  rewrite (count_none _ [EvNext v]) by (intros e [<-|[]]; reflexivity). lia.
Qed.

Lemma attempts_repeat op s (l : list Event) n :
  attempts op s (concat (repeat l n)) = n * attempts op s l.
Proof.
  unfold attempts. induction n as [|n IH]; [reflexivity|].
  cbn [repeat concat]. rewrite count_app, IH. lia.
Qed.

(** X18: for each value the handler delivers before it completes, every
    session opened for the request has its commit called once and its
    end-session called once: as many times as there are values, and not at
    all when there is none; no abort is called, and the caller receives the
    values and the completion. *)
Theorem X18_commit_and_end_run_once_for_each_value env this next st ts st1 vs :
  NoDup (transactionsToBeGeneratedInInterceptor this) ->
  generateTransactions env this st = (Normal ts, st1) ->
  next (attached ts) (heap st1) = (vs, Stream.Completes) ->
  exists new,
    trace (snd (Stream.serve env this next st)) = (trace st ++ new)%list /\
    length (opened new) = length ts /\
    (forall s, In s (opened new) ->
       attempts Commit s new = length vs /\
       attempts End_ s new = length vs /\
       attempts Abort s new = 0) /\
    delivered new = (map EvNext vs ++ [EvComplete])%list.
Proof.
  intros Hnd Hgen Hnext.
  destruct (generateTransactions_success env this st ts st1 Hgen Hnd)
    as (gen & Htr & Hss & Hndss & Hev & _ & _).
  rewrite (stream_serve_values env this next st ts st1 (opened gen) vs Hgen Hss Hnext).
  rewrite Htr, <- app_assoc.
  eexists. split; [reflexivity|].
  assert (Hgen_none : forall P, (forall e, is_open_event e = true -> P e = false) ->
                                count P gen = 0).
  { intros P HP. apply count_none. intros e He. apply HP, Hev, He. }
  assert (Hrest_open : opened (EvHandle (attached ts) ::
            flat_map (fun v => (fanout Commit (opened gen) ++ [EvNext v])%list) vs
            ++ [EvComplete]
            ++ concat (repeat (settle_events env Commit (opened gen) ++ fanout End_ (opened gen)
                               ++ settle_events env End_ (opened gen))%list (length vs))) = []).
  { apply opened_none. intros e [<-|He]; [reflexivity|].
    apply in_app_or in He. destruct He as [He|He].
    - apply in_flat_map in He. destruct He as (v & _ & He).
      apply in_app_or in He. destruct He as [He|[<-|[]]]; [shape|]; reflexivity.
    - apply in_app_or in He. destruct He as [[<-|[]]|He]; [reflexivity|].
      apply in_concat in He. destruct He as (l & Hl & He).
      apply repeat_spec in Hl. subst l.
      repeat (apply in_app_or in He; destruct He as [He|He]); shape; reflexivity. }
  rewrite opened_app, Hrest_open, app_nil_r.
  split; [eapply sessions_length; eauto|]. split.
  - intros s Hs. pose proof (count_occ_NoDup_In _ s Hndss Hs) as Hone.
    assert (Hgen0 : forall op, attempts op s gen = 0).
    { intros op. apply Hgen_none. intros [] ?; try discriminate; reflexivity. }
    rewrite !attempts_app, !attempts_cons, !attempts_app. cbn [is_call].
    rewrite !Hgen0, !attempts_values, !attempts_repeat, !attempts_app.
    rewrite !attempts_settle_events, !attempts_fanout.
    rewrite (attempts_fanout_other End_ Commit), (attempts_fanout_other Abort Commit),
      (attempts_fanout_other Commit End_), (attempts_fanout_other Abort End_)
      by discriminate.
    rewrite Hone.
    assert (Hc : forall op, attempts op s [EvComplete] = 0) by reflexivity.
    rewrite !Hc.
    repeat split; lia.
  - unfold delivered. rewrite filter_app. cbn [filter is_notification].
    rewrite (filter_none _ gen)
      by (intros e He; specialize (Hev e He); destruct e; try discriminate; reflexivity).
    rewrite !filter_app. cbn [filter is_notification app].
    assert (Hvalues : filter is_notification
                        (flat_map (fun v => (fanout Commit (opened gen) ++ [EvNext v])%list) vs)
                      = map EvNext vs).
    { clear. induction vs as [|v vs IH]; [reflexivity|].
      cbn [flat_map map]. rewrite !filter_app, IH.
      rewrite (filter_none _ (fanout _ _)) by (intros; shape; reflexivity). reflexivity. }
    rewrite Hvalues.
    rewrite (filter_none _ (concat _)); [reflexivity|].
    intros e He. apply in_concat in He. destruct He as (l & Hl & He).
    apply repeat_spec in Hl. subst l.
    repeat (apply in_app_or in He; destruct He as [He|He]); shape; reflexivity.
Qed.

Lemma X18_commit_and_end_run_once_for_each_value_witness :
  exists new,
    trace (snd (Stream.serve Samples.store Samples.single StreamSamples.two_values
                  (Samples.initial Samples.two_templates))) = new /\
    opened new = [0] /\
    attempts Commit 0 new = 2 /\ attempts End_ 0 new = 2.
Proof.
  destruct (X18_commit_and_end_run_once_for_each_value Samples.store Samples.single
              StreamSamples.two_values (Samples.initial Samples.two_templates) [2]
              (snd (generateTransactions Samples.store Samples.single
                      (Samples.initial Samples.two_templates)))
              [JString "first"; JString "second"])
    as (new & Htr & _ & Hcounts & _).
  - constructor.
  - vm_compute. reflexivity.
  - reflexivity.
  - exists new.
    change (trace (Samples.initial Samples.two_templates) ++ new)%list with new in Htr.
    assert (Hopened : opened new = [0]) by (rewrite <- Htr; vm_compute; reflexivity).
    split; [exact Htr|]. split; [exact Hopened|].
    destruct (Hcounts 0) as (H1 & H2 & _); [rewrite Hopened; left; reflexivity|].
    split; [exact H1 | exact H2].
Defined.
